(** * Ticket integrity and check-in reconciliation of the eo-app repository

    Shallow embedding of
    - [generateQRCodeData] and [verifyQRCodeData] (src/src/lib/types.ts),
    - the QR scan route [POST] (src/unnamed/part_007),
    - the manual attendance route [POST] (src/src/app/api/attendance/route.ts).

    JavaScript strings are sequences of UTF-16 code units, modelled as
    [list N].  [JSON.parse] and [JSON.stringify] are written out below;
    the Node/Web platform primitives the code calls (HMAC-SHA256, [Date],
    [URL], [Buffer] base64 decoding) are the methods of the class
    [Runtime]. *)

From Stdlib Require Import List NArith ZArith QArith Bool Lia.
From Stdlib Require Import String Ascii.
Import ListNotations.
Open Scope N_scope.
Set Warnings "-register-all".

(** ** JavaScript strings *)

Definition jstr := list N.

(** A string literal of the source, as code units. *)
Definition js (s : String.string) : jstr :=
  map Ascii.N_of_ascii (String.list_ascii_of_string s).

(** The same, with the apostrophe standing for a double quote, to write
    JSON texts. *)
Definition jsq (s : String.string) : jstr :=
  map (fun c => if c =? 39 then 34 else c) (js s).

Arguments js s%_string_scope.
Arguments jsq s%_string_scope.

Fixpoint jstr_eqb (a b : jstr) : bool :=
  match a, b with
  | [], [] => true
  | x :: a', y :: b' => (x =? y) && jstr_eqb a' b'
  | _, _ => false
  end.

Fixpoint starts_with (p s : jstr) : bool :=
  match p, s with
  | [], _ => true
  | x :: p', y :: s' => (x =? y) && starts_with p' s'
  | _ :: _, [] => false
  end.

(** [s.substring(0, n)] *)
Definition substring0 (s : jstr) (n : nat) : jstr := firstn n s.

(** ** JSON values

    [JSON.parse] returns plain data: objects keep their properties in
    insertion order (a repeated key overwrites the value in place), numbers
    keep their source lexeme (the conversion to a double is not modelled;
    no statement below depends on a number's value). *)

Inductive json : Type :=
| JNull
| JBool (b : bool)
| JNum (lexeme : jstr)
| JStr (s : jstr)
| JArr (items : list json)
| JObj (props : list (jstr * json)).

(** CreateDataProperty on an object under construction. *)
Fixpoint obj_set {A} (ps : list (jstr * A)) (k : jstr) (v : A) : list (jstr * A) :=
  match ps with
  | [] => [(k, v)]
  | (k', v') :: ps' =>
      if jstr_eqb k k' then (k', v) :: ps' else (k', v') :: obj_set ps' k v
  end.

(** Property read [o[k]]; [None] is [undefined]. *)
Fixpoint obj_get {A} (ps : list (jstr * A)) (k : jstr) : option A :=
  match ps with
  | [] => None
  | (k', v) :: ps' => if jstr_eqb k k' then Some v else obj_get ps' k
  end.

(** The object [rest] of [const { k, ...rest } = o]. *)
Definition obj_remove {A} (ps : list (jstr * A)) (k : jstr) : list (jstr * A) :=
  filter (fun '(k', _) => negb (jstr_eqb k k')) ps.

(** [v.k] for a parsed JSON value; primitives and arrays have no own
    property of the names the code reads. *)
Definition get_prop (v : json) (k : jstr) : option json :=
  match v with
  | JObj ps => obj_get ps k
  | _ => None
  end.

Definition is_digit (c : N) : bool := (48 <=? c) && (c <=? 57).

Fixpoint digits_value (acc : N) (s : jstr) : option N :=
  match s with
  | [] => Some acc
  | c :: r => if is_digit c then digits_value (acc * 10 + (c - 48)) r else None
  end.

(** Splits [s] at the first code unit satisfying [p]. *)
Fixpoint break_at (p : N -> bool) (s : jstr) : jstr * jstr :=
  match s with
  | [] => ([], [])
  | c :: r => if p c then ([], s) else let (a, b) := break_at p r in (c :: a, b)
  end.

(** The double [JSON.parse] reads from a number lexeme is zero exactly
    when the lexeme's value [m / 10^j] is zero or rounds to zero, that is
    when it is at most half the least subnormal, [2^-1075] (a tie rounds
    to the even zero).  [10^j] exceeds [m * 2^1075] as soon as [8^j]
    does, which spares computing large powers. *)
Definition number_is_zero (l : jstr) : bool :=
  let body := match l with 45 :: r => r | _ => l end in
  let (mant, ex) := break_at (fun c => (c =? 101) || (c =? 69)) body in
  let (ip, fp) := break_at (fun c => c =? 46) mant in
  let fdigits := skipn 1 fp in
  let value ds := match digits_value 0 ds with Some n => n | None => 0 end in
  let m := value (ip ++ fdigits) in
  let x := match ex with
           | _ :: 45 :: ds => (- Z.of_N (value ds))%Z
           | _ :: 43 :: ds => Z.of_N (value ds)
           | _ :: ds => Z.of_N (value ds)
           | [] => 0%Z
           end in
  let j := (Z.of_nat (List.length fdigits) - x)%Z in
  (m =? 0) ||
  ((0 <? j)%Z &&
   (let b := m * 2 ^ 1075 in (N.size b <=? 3 * Z.to_N j) || (b <=? 10 ^ Z.to_N j))).

(** ToBoolean, with [None] for [undefined]. *)
Definition truthy (v : option json) : bool :=
  match v with
  | None | Some JNull => false
  | Some (JBool b) => b
  | Some (JNum l) => negb (number_is_zero l)
  | Some (JStr s) => match s with [] => false | _ => true end
  | Some (JArr _) | Some (JObj _) => true
  end.

(** ** JSON.parse *)

Definition is_ws (c : N) : bool := (c =? 32) || (c =? 9) || (c =? 10) || (c =? 13).

Fixpoint skip_ws (s : jstr) : jstr :=
  match s with
  | c :: r => if is_ws c then skip_ws r else s
  | [] => []
  end.

Definition hex_val (c : N) : option N :=
  if (48 <=? c) && (c <=? 57) then Some (c - 48)
  else if (65 <=? c) && (c <=? 70) then Some (c - 55)
  else if (97 <=? c) && (c <=? 102) then Some (c - 87)
  else None.

Definition hex4 (a b c d : N) : option N :=
  match hex_val a, hex_val b, hex_val c, hex_val d with
  | Some x, Some y, Some z, Some w => Some (((x * 16 + y) * 16 + z) * 16 + w)
  | _, _, _, _ => None
  end.

(** The single-character escapes: backslash followed by one of the
    characters quote, backslash, slash, b, f, n, r, t. *)
Definition simple_escape (e : N) : option N :=
  if e =? 34 then Some 34
  else if e =? 92 then Some 92
  else if e =? 47 then Some 47
  else if e =? 98 then Some 8
  else if e =? 102 then Some 12
  else if e =? 110 then Some 10
  else if e =? 114 then Some 13
  else if e =? 116 then Some 9
  else None.

(** The characters of a string literal after its opening quote, up to and
    including the closing quote; returns the code units and the rest. *)
Fixpoint parse_chars (s : jstr) : option (jstr * jstr) :=
  match s with
  | [] => None
  | c :: r =>
      if c =? 34 then Some ([], r)
      else if c =? 92 then
        match r with
        | [] => None
        | e :: r' =>
            if e =? 117 then
              match r' with
              | h1 :: h2 :: h3 :: h4 :: r'' =>
                  match hex4 h1 h2 h3 h4 with
                  | Some u =>
                      match parse_chars r'' with
                      | Some (x, rest) => Some (u :: x, rest)
                      | None => None
                      end
                  | None => None
                  end
              | _ => None
              end
            else
              match simple_escape e with
              | Some u =>
                  match parse_chars r' with
                  | Some (x, rest) => Some (u :: x, rest)
                  | None => None
                  end
              | None => None
              end
        end
      else if c <? 32 then None
      else
        match parse_chars r with
        | Some (x, rest) => Some (c :: x, rest)
        | None => None
        end
  end.

Fixpoint take_digits (s : jstr) : jstr * jstr :=
  match s with
  | c :: r =>
      if is_digit c then let (ds, r') := take_digits r in (c :: ds, r')
      else ([], s)
  | [] => ([], [])
  end.

(** [-? (0 | [1-9][0-9]* ) (. [0-9]+)? ([eE] [+-]? [0-9]+)?] *)
Definition parse_number (s : jstr) : option (jstr * jstr) :=
  let '(sign, s1) := match s with
                     | 45 :: r => ([45], r)
                     | _ => ([], s)
                     end in
  let int_part :=
    match s1 with
    | 48 :: r => Some ([48], r)
    | c :: r => if (49 <=? c) && (c <=? 57)
                then let (ds, r') := take_digits r in Some (c :: ds, r')
                else None
    | [] => None
    end in
  match int_part with
  | None => None
  | Some (ip, s2) =>
      let frac :=
        match s2 with
        | 46 :: r => let (ds, r') := take_digits r in
                     match ds with [] => None | _ => Some (46 :: ds, r') end
        | _ => Some ([], s2)
        end in
      match frac with
      | None => None
      | Some (fp, s3) =>
          let ex :=
            match s3 with
            | e :: r =>
                if (e =? 101) || (e =? 69) then
                  let '(sg, r1) := match r with
                                   | 43 :: r1 => ([43], r1)
                                   | 45 :: r1 => ([45], r1)
                                   | _ => ([], r)
                                   end in
                  let (ds, r2) := take_digits r1 in
                  match ds with [] => None | _ => Some (e :: sg ++ ds, r2) end
                else Some ([], s3)
            | [] => Some ([], s3)
            end in
          match ex with
          | None => None
          | Some (xp, s4) => Some (sign ++ ip ++ fp ++ xp, s4)
          end
      end
  end.

Definition lit_true : jstr := [116; 114; 117; 101].
Definition lit_false : jstr := [102; 97; 108; 115; 101].
Definition lit_null : jstr := [110; 117; 108; 108].

(** Recursive descent over a JSON text.  [fuel] bounds the length of a
    chain of nested calls; every call of the chain consumes at least one
    code unit before the next, so [S (length s)] never runs out. *)
Fixpoint parse_value (fuel : nat) (s : jstr) {struct fuel} : option (json * jstr) :=
  match fuel with
  | O => None
  | S f =>
      match skip_ws s with
      | [] => None
      | c :: r =>
          if c =? 123 then
            match skip_ws r with
            | 125 :: r' => Some (JObj [], r')
            | _ => match parse_members f [] r with
                   | Some (ps, r') => Some (JObj ps, r')
                   | None => None
                   end
            end
          else if c =? 91 then
            match skip_ws r with
            | 93 :: r' => Some (JArr [], r')
            | _ => match parse_items f [] r with
                   | Some (xs, r') => Some (JArr xs, r')
                   | None => None
                   end
            end
          else if c =? 34 then
            match parse_chars r with
            | Some (x, r') => Some (JStr x, r')
            | None => None
            end
          else if starts_with lit_true (c :: r) then Some (JBool true, skipn 4 (c :: r))
          else if starts_with lit_false (c :: r) then Some (JBool false, skipn 5 (c :: r))
          else if starts_with lit_null (c :: r) then Some (JNull, skipn 4 (c :: r))
          else match parse_number (c :: r) with
               | Some (l, r') => Some (JNum l, r')
               | None => None
               end
      end
  end
(** The members of an object after its opening brace: a key, a colon and
    a value, then a comma and the next member or the closing brace. *)
with parse_members (fuel : nat) (acc : list (jstr * json)) (s : jstr) {struct fuel}
  : option (list (jstr * json) * jstr) :=
  match fuel with
  | O => None
  | S f =>
      match skip_ws s with
      | 34 :: r =>
          match parse_chars r with
          | Some (k, r1) =>
              match skip_ws r1 with
              | 58 :: r2 =>
                  match parse_value f r2 with
                  | Some (v, r3) =>
                      let acc' := obj_set acc k v in
                      match skip_ws r3 with
                      | 44 :: r4 => parse_members f acc' r4
                      | 125 :: r4 => Some (acc', r4)
                      | _ => None
                      end
                  | None => None
                  end
              | _ => None
              end
          | None => None
          end
      | _ => None
      end
  end
with parse_items (fuel : nat) (acc : list json) (s : jstr) {struct fuel}
  : option (list json * jstr) :=
  match fuel with
  | O => None
  | S f =>
      match parse_value f s with
      | Some (v, r) =>
          match skip_ws r with
          | 44 :: r' => parse_items f (acc ++ [v]) r'
          | 93 :: r' => Some (acc ++ [v], r')
          | _ => None
          end
      | None => None
      end
  end.

(** [JSON.parse(s)]; [None] is a thrown [SyntaxError]. *)
Definition json_parse (s : jstr) : option json :=
  match parse_value (S (List.length s)) s with
  | Some (v, rest) => match skip_ws rest with [] => Some v | _ => None end
  | None => None
  end.

(** ** JSON.stringify *)

Definition hex_lower (n : N) : N := if n <? 10 then 48 + n else 87 + n.

(** UnicodeEscape: backslash, [u] and four lowercase hex digits. *)
Definition u_escape (c : N) : jstr :=
  [92; 117; hex_lower (N.shiftr c 12 mod 16); hex_lower (N.shiftr c 8 mod 16);
   hex_lower (N.shiftr c 4 mod 16); hex_lower (c mod 16)].

Definition is_lead (c : N) : bool := (55296 <=? c) && (c <=? 56319).
Definition is_trail (c : N) : bool := (56320 <=? c) && (c <=? 57343).

(** The escape table of QuoteJSONString. *)
Definition short_escape (c : N) : option N :=
  if c =? 8 then Some 98
  else if c =? 9 then Some 116
  else if c =? 10 then Some 110
  else if c =? 12 then Some 102
  else if c =? 13 then Some 114
  else if c =? 34 then Some 34
  else if c =? 92 then Some 92
  else None.

(** QuoteJSONString without the surrounding quotes: a surrogate pair is
    copied, a lone surrogate and a control character are escaped. *)
Fixpoint quote_units (s : jstr) : jstr :=
  match s with
  | [] => []
  | c :: r =>
      match short_escape c with
      | Some e => 92 :: e :: quote_units r
      | None =>
          if c <? 32 then u_escape c ++ quote_units r
          else if is_lead c then
            match r with
            | d :: r' => if is_trail d then c :: d :: quote_units r'
                         else u_escape c ++ quote_units r
            | [] => u_escape c
            end
          else if is_trail c then u_escape c ++ quote_units r
          else c :: quote_units r
      end
  end.

Definition quote (s : jstr) : jstr := 34 :: quote_units s ++ [34].

(** Array index keys: canonical decimal integers below 2^32 - 1. *)
Definition array_index (k : jstr) : option N :=
  match k with
  | [48] => Some 0
  | c :: _ =>
      if (49 <=? c) && (c <=? 57) then
        match digits_value 0 k with
        | Some n => if n <? 4294967295 then Some n else None
        | None => None
        end
      else None
  | [] => None
  end.

Fixpoint insert_by_index {A} (n : N) (p : jstr * A) (l : list (N * (jstr * A)))
  : list (N * (jstr * A)) :=
  match l with
  | [] => [(n, p)]
  | (m, q) :: l' => if n <? m then (n, p) :: l else (m, q) :: insert_by_index n p l'
  end.

(** OrdinaryOwnPropertyKeys: array indices ascending, then the other
    string keys in insertion order. *)
Definition own_keys_order {A} (ps : list (jstr * A)) : list (jstr * A) :=
  let idx := fold_left (fun acc p => match array_index (fst p) with
                                     | Some n => insert_by_index n p acc
                                     | None => acc
                                     end) ps [] in
  map snd idx ++ filter (fun p => match array_index (fst p) with
                                  | Some _ => false
                                  | None => true
                                  end) ps.

Fixpoint join (sep : jstr) (l : list jstr) : jstr :=
  match l with
  | [] => []
  | [x] => x
  | x :: l' => x ++ sep ++ join sep l'
  end.

(** ** Platform primitives *)

Class Runtime := {
  (** [crypto.createHmac('sha256', key).update(msg).digest('hex')] *)
  hmac_sha256_hex : jstr -> jstr -> jstr;
  (** [new Date(ms).toISOString()] *)
  iso_string : Z -> jstr;
  (** [new Date(v).getTime()] for a property value [v] ([None] for
      [undefined]); [None] in the result is [NaN]. *)
  date_value : option json -> option Z;
  (** [new URL(s).searchParams] as its list of decoded name/value pairs;
      [None] when the constructor throws. *)
  url_search_params : jstr -> option (list (jstr * jstr));
  (** [Buffer.from(s, 'base64').toString('utf-8')] *)
  base64_utf8 : jstr -> jstr;
  (** [JSON.stringify] of the number [JSON.parse] reads from a number
      lexeme: the shortest decimal that reads back as the same double
      ([1.0] gives [1], [1e2] gives [100]), [null] for an infinity. *)
  json_number_text : jstr -> jstr;
  (** Prisma's reading of an object given for a [String] column in a
      [where] clause, as a [StringFilter] ([equals], [not], [in],
      [contains], [startsWith], ...): the column values it keeps, or
      [None] when the query fails validation. *)
  prisma_string_filter : list (jstr * json) -> option (jstr -> bool)
}.

Section Stringify.
Context `{Runtime}.

(** [JSON.stringify(v)] for a value [JSON.parse] produced. *)
Fixpoint stringify (v : json) : jstr :=
  match v with
  | JNull => lit_null
  | JBool true => lit_true
  | JBool false => lit_false
  | JNum l => json_number_text l
  | JStr s => quote s
  | JArr xs => 91 :: join [44] (map stringify xs) ++ [93]
  | JObj ps =>
      123 :: join [44] (map (fun '(k, t) => quote k ++ 58 :: t)
                          (own_keys_order (map (fun '(k, x) => (k, stringify x)) ps)))
        ++ [125]
  end.

End Stringify.

Example number_is_zero_sample :
  map number_is_zero [js "0"; js "-0.000"; js "0e5"; js "1e-400"; js "2.4703282292062327e-324";
                      js "2.4703282292062328e-324"; js "1e-300"; js "5"]
  = [true; true; true; true; true; false; false; false].
Proof. vm_compute. reflexivity. Qed.

Example json_parse_sample :
  json_parse (jsq "{'registrationId':'r1','n':[1,-2.5e3,true,null]}")
  = Some (JObj [(js "registrationId", JStr (js "r1"));
                (js "n", JArr [JNum (js "1"); JNum (js "-2.5e3"); JBool true; JNull])]).
Proof. vm_compute. reflexivity. Qed.

(** [URLSearchParams.prototype.get]: the first value of that name. *)
Definition params_get (ps : list (jstr * jstr)) (name : jstr) : option jstr :=
  match find (fun p => jstr_eqb (fst p) name) ps with
  | Some (_, v) => Some v
  | None => None
  end.

(** [process.env.NEXTAUTH_SECRET || 'fallback-secret'] *)
Definition secret_of (env : option jstr) : jstr :=
  match env with
  | Some ((_ :: _) as s) => s
  | _ => js "fallback-secret"
  end.

Section Ticket.
Context `{Runtime}.

(** [const data = { registrationId, eventId, userId, timestamp, type: 'EVENT_TICKET' }] *)
Definition ticket_data (registrationId eventId userId timestamp : jstr) : list (jstr * json) :=
  [(js "registrationId", JStr registrationId); (js "eventId", JStr eventId);
   (js "userId", JStr userId); (js "timestamp", JStr timestamp);
   (js "type", JStr (js "EVENT_TICKET"))].

(** [generateQRCodeData(registrationId, eventId, userId)], run at time
    [now] (milliseconds) with [NEXTAUTH_SECRET] set to [env]. *)
Definition generateQRCodeData (env : option jstr) (now : Z)
    (registrationId eventId userId : jstr) : jstr :=
  let timestamp := iso_string now in
  let secret := secret_of env in
  let data := ticket_data registrationId eventId userId timestamp in
  let hash := hmac_sha256_hex secret (stringify (JObj data)) in
  stringify (JObj (data ++ [(js "hash", JStr hash)])).

Inductive verify_error := InvalidFormat | Tampered | Expired.

(** [{ valid, data?, error? }] *)
Inductive verify_result :=
| VValid (data : json)
| VInvalid (error : verify_error).

(** [(now - t) / (1000 * 60 * 60)], as the exact quotient.  For integer
    millisecond differences below 2^53 the rounded double quotient lies on
    the same side of 24 as the exact one (24 is a double, rounding is
    monotone, and [86400001 / 3600000] exceeds 24 by far more than an ulp). *)
Definition hoursDiff (now t : Z) : Q := Qmake (now - t) (1000 * 60 * 60).

(** [hash !== expectedHash] is false only for the same string. *)
Definition strict_eq_str (v : option json) (s : jstr) : bool :=
  match v with
  | Some (JStr h) => jstr_eqb h s
  | _ => false
  end.

(** [verifyQRCodeData(qrDataString)] at time [now]. *)
Definition verifyQRCodeData (env : option jstr) (now : Z) (qrDataString : jstr)
  : verify_result :=
  match json_parse qrDataString with
  | None => VInvalid InvalidFormat
  | Some (JObj ps as qrData) =>
      let hash := obj_get ps (js "hash") in
      let originalData := obj_remove ps (js "hash") in
      if negb (truthy hash) || negb (truthy (get_prop qrData (js "registrationId")))
         || negb (truthy (get_prop qrData (js "eventId")))
      then VInvalid InvalidFormat
      else
        let secret := secret_of env in
        let expectedHash := hmac_sha256_hex secret (stringify (JObj originalData)) in
        if negb (strict_eq_str hash expectedHash) then VInvalid Tampered
        else
          match date_value (get_prop qrData (js "timestamp")) with
          | Some t =>
              if negb (Qle_bool (hoursDiff now t) (inject_Z 24)) then VInvalid Expired
              else VValid qrData
          | None => VValid qrData (* NaN > 24 is false *)
          end
  (* [null] makes the destructuring throw; any other value has no own
     [hash], so the format check fails *)
  | Some _ => VInvalid InvalidFormat
  end.

End Ticket.

(** ** A sample runtime

    Deterministic stand-ins for the platform primitives, used only to run
    the model on concrete inputs: a 32-bit checksum in hex in place of
    HMAC-SHA256, decimal milliseconds in place of ISO-8601 dates, a URL
    reader for [scheme://host/path?query#fragment] texts (no
    percent-decoding), a base64 decoder whose bytes are read as
    Latin-1, number texts for lexemes without an exponent and three of
    the [StringFilter] conditions.  No theorem below depends on them. *)

Definition sample_mac (key msg : jstr) : jstr :=
  let h := fold_left (fun acc c => (acc * 31 + c) mod 4294967296) (key ++ 0 :: msg) 7 in
  map (fun i => hex_lower (N.shiftr h (4 * i) mod 16)) [7; 6; 5; 4; 3; 2; 1; 0].

Fixpoint decimal_digits (fuel : nat) (n : N) (acc : jstr) : jstr :=
  match fuel with
  | O => acc
  | S f => if n <? 10 then (48 + n) :: acc
           else decimal_digits f (n / 10) ((48 + n mod 10) :: acc)
  end.

Definition sample_iso (t : Z) : jstr := decimal_digits 64 (Z.to_N t) [].

Definition sample_date (v : option json) : option Z :=
  match v with
  | Some (JStr ((_ :: _) as s)) => option_map Z.of_N (digits_value 0 s)
  | Some JNull => Some 0%Z
  | _ => None
  end.

Fixpoint split_on (sep : N) (s : jstr) (cur : jstr) : list jstr :=
  match s with
  | [] => [rev cur]
  | c :: r => if c =? sep then rev cur :: split_on sep r [] else split_on sep r (c :: cur)
  end.

Definition form_pair (f : jstr) : jstr * jstr :=
  let plus := map (fun c => if c =? 43 then 32 else c) in
  let (n, v) := break_at (fun c => c =? 61) f in
  (plus n, plus (skipn 1 v)).

Definition sample_url (s : jstr) : option (list (jstr * jstr)) :=
  let after_scheme :=
    if starts_with (js "https://") s then Some (skipn 8 s)
    else if starts_with (js "http://") s then Some (skipn 7 s)
    else None in
  match after_scheme with
  | None => None
  | Some r =>
      let (host, rest) := break_at (fun c => (c =? 47) || (c =? 63) || (c =? 35)) r in
      match host with
      | [] => None
      | _ =>
          let (_, q) := break_at (fun c => c =? 63) rest in
          let query := fst (break_at (fun c => c =? 35) (skipn 1 q)) in
          Some (map form_pair (filter (fun f => match f with [] => false | _ => true end)
                                      (split_on 38 query [])))
      end
  end.

Fixpoint drop_zeros (l : jstr) : jstr :=
  match l with
  | 48 :: r => drop_zeros r
  | _ => l
  end.

(** Number text for lexemes without an exponent (a fraction of zeros
    dropped, [-0] read as [0]); other lexemes are kept as written. *)
Definition sample_number_text (l : jstr) : jstr :=
  let '(sign, body) := match l with 45 :: r => ([45], r) | _ => ([], l) end in
  if existsb (fun c => (c =? 101) || (c =? 69)) body then l
  else
    let (ip, fp) := break_at (fun c => c =? 46) body in
    let frac := rev (drop_zeros (rev (skipn 1 fp))) in
    match ip, frac with
    | [48], [] => [48]
    | _, [] => sign ++ ip
    | _, _ => sign ++ ip ++ 46 :: frac
    end.

(** The [equals], [not] and [startsWith] conditions of a [StringFilter],
    with string operands; any other member fails validation. *)
Definition sample_filter_op (k : jstr) (v : json) : option (jstr -> bool) :=
  match v with
  | JStr s =>
      if jstr_eqb k (js "equals") then Some (fun x => jstr_eqb x s)
      else if jstr_eqb k (js "not") then Some (fun x => negb (jstr_eqb x s))
      else if jstr_eqb k (js "startsWith") then Some (fun x => starts_with s x)
      else None
  | _ => None
  end.

Fixpoint sample_string_filter (ps : list (jstr * json)) : option (jstr -> bool) :=
  match ps with
  | [] => Some (fun _ => true)
  | (k, v) :: ps' =>
      match sample_filter_op k v, sample_string_filter ps' with
      | Some f, Some g => Some (fun x => f x && g x)
      | _, _ => None
      end
  end.

Definition b64_val (c : N) : option N :=
  if (65 <=? c) && (c <=? 90) then Some (c - 65)
  else if (97 <=? c) && (c <=? 122) then Some (c - 71)
  else if is_digit c then Some (c + 4)
  else if (c =? 43) || (c =? 45) then Some 62
  else if (c =? 47) || (c =? 95) then Some 63
  else None.

Fixpoint b64_bytes (s : jstr) (acc : N) (nbits : N) : jstr :=
  match s with
  | [] => []
  | c :: r =>
      if c =? 61 then []
      else match b64_val c with
           | None => b64_bytes r acc nbits
           | Some v =>
               let acc' := acc * 64 + v in
               if 8 <=? nbits + 6
               then N.shiftr acc' (nbits - 2) mod 256
                      :: b64_bytes r (acc' mod (2 ^ (nbits - 2))) (nbits - 2)
               else b64_bytes r acc' (nbits + 6)
           end
  end.

#[export] Instance sample_runtime : Runtime := {|
  hmac_sha256_hex := sample_mac;
  iso_string := sample_iso;
  date_value := sample_date;
  url_search_params := sample_url;
  base64_utf8 := fun s => b64_bytes s 0 0;
  json_number_text := sample_number_text;
  prisma_string_filter := sample_string_filter
|}.

Example stringify_sample :
  stringify (JObj [(js "b", JStr [27; 34]); (js "1", JNull); (js "n", JNum (js "-1.50"))])
  = jsq "{'1':null,'b':'\u001b\'','n':-1.5}".
Proof. vm_compute. reflexivity. Qed.

Example sample_generate_verify :
  verifyQRCodeData None 5000 (generateQRCodeData None 1000 (js "r1") (js "e1") (js "u1"))
  = VValid (JObj (ticket_data (js "r1") (js "e1") (js "u1") (js "1000")
                  ++ [(js "hash", JStr (sample_mac (js "fallback-secret")
                        (stringify (JObj (ticket_data (js "r1") (js "e1") (js "u1") (js "1000"))))))])).
Proof. vm_compute. reflexivity. Qed.

Example sample_url_params :
  sample_url (js "https://x/ticket?registrationId=r1&eventId=e1#f")
  = Some [(js "registrationId", js "r1"); (js "eventId", js "e1")].
Proof. vm_compute. reflexivity. Qed.

Example sample_base64 : b64_bytes (js "eyJhIjoxfQ==") 0 0 = jsq "{'a':1}".
Proof. vm_compute. reflexivity. Qed.

(** ** Persisted rows *)

Module RegistrationStatus.
Inductive t := PENDING | CONFIRMED | CANCELLED | WAITLIST.
End RegistrationStatus.

Module EventStatus.
Inductive t := DRAFT | PUBLISHED | ONGOING | COMPLETED | CANCELLED.
End EventStatus.

Module CheckInMethod.
Inductive t := QR_CODE | MANUAL.
End CheckInMethod.

Record Event := {
  ev_id : jstr;
  ev_name : jstr;
  ev_startDate : Z;
  ev_endDate : Z;
  ev_status : EventStatus.t
}.

Record Registration := {
  reg_id : jstr;
  reg_status : RegistrationStatus.t;
  reg_eventId : jstr;
  reg_userId : jstr
}.

Record Ticket := {
  t_id : jstr;
  t_registrationId : jstr;
  t_ticketNumber : jstr;
  t_qrCodeData : option jstr
}.

Record Attendance := {
  att_id : N;
  att_registrationId : jstr;
  att_sessionId : option jstr;
  att_checkInTime : option Z;
  att_checkOutTime : option Z;
  att_method : CheckInMethod.t
}.

(** The tables the routes read and write; [findFirst] returns the first
    matching row in list order.  Of the event sessions (the relation
    [session] of an attendance row) only the ids matter here. *)
Record Store := {
  events : list Event;
  registrations : list Registration;
  tickets : list Ticket;
  attendances : list Attendance;
  sessions : list jstr
}.

Definition with_attendances (st : Store) (atts : list Attendance) : Store :=
  {| events := events st; registrations := registrations st;
     tickets := tickets st; attendances := atts; sessions := sessions st |}.

Definition opt_jstr_eqb (a b : option jstr) : bool :=
  match a, b with
  | Some x, Some y => jstr_eqb x y
  | None, None => true
  | _, _ => false
  end.

(** The route responses ([NextResponse.json] bodies, by their [error] or
    [message]). *)
Inductive response :=
| QrDataRequired
| InvalidQrFormat (received : jstr)
| MissingRegistrationId
| InvalidTicket (searchedId : json) (receivedQrData : jstr) (availableTickets : list Ticket)
| RegistrationNotConfirmed
| EventNotAvailable (status : EventStatus.t)
| EventNotStarted
| EventEnded
| AlreadyCheckedIn (existing : Attendance)
| CheckInSuccessful (attendance : Attendance)
| NoActiveCheckIn
| CheckOutSuccessful (attendance : Attendance)
| InvalidAction
| RegistrationIdRequired
| RegistrationNotFound
| InternalServerError.

Definition status_code (r : response) : N :=
  match r with
  | InvalidTicket _ _ _ | RegistrationNotFound => 404
  | CheckInSuccessful _ | CheckOutSuccessful _ => 200
  | InternalServerError => 500
  | _ => 400
  end.

(** ** Attendance writes *)

(** The id Prisma gives a created row, fresh for the table. *)
Definition fresh_id (atts : list Attendance) : N :=
  1 + fold_right N.max 0 (map att_id atts).

(** [where: { registrationId, sessionId: sessionId || null }] *)
Definition same_partition (r : jstr) (sess : option jstr) (a : Attendance) : bool :=
  jstr_eqb (att_registrationId a) r && opt_jstr_eqb (att_sessionId a) sess.

(** [checkInTime: { not: null }, checkOutTime: null] *)
Definition is_open (a : Attendance) : bool :=
  match att_checkInTime a, att_checkOutTime a with
  | Some _, None => true
  | _, _ => false
  end.

(** The foreign keys of a new attendance row: its registration, and its
    session when it has one. *)
Definition registration_exists (st : Store) (r : jstr) : bool :=
  existsb (fun g => jstr_eqb (reg_id g) r) (registrations st).

Definition session_exists (st : Store) (sess : option jstr) : bool :=
  match sess with
  | None => true
  | Some s => existsb (jstr_eqb s) (sessions st)
  end.

(** The check-in branch shared by both routes: [findFirst] for the
    partition, then [attendance.create], which throws (answered with
    status 500) when a foreign key names no row.  The [new Date()] of the
    create is taken to be the request time [now]. *)
Definition check_in (st : Store) (now : Z) (r : jstr) (sess : option jstr)
    (method : CheckInMethod.t) : response * Store :=
  match find (same_partition r sess) (attendances st) with
  | Some existing => (AlreadyCheckedIn existing, st)
  | None =>
      if negb (registration_exists st r) || negb (session_exists st sess)
      then (InternalServerError, st)
      else
        let a := {| att_id := fresh_id (attendances st); att_registrationId := r;
                    att_sessionId := sess; att_checkInTime := Some now;
                    att_checkOutTime := None; att_method := method |} in
        (CheckInSuccessful a, with_attendances st (attendances st ++ [a]))
  end.

Definition set_checkout (now : Z) (a : Attendance) : Attendance :=
  {| att_id := att_id a; att_registrationId := att_registrationId a;
     att_sessionId := att_sessionId a; att_checkInTime := att_checkInTime a;
     att_checkOutTime := Some now; att_method := att_method a |}.

(** The check-out branch of the scan route: [findFirst] of an open row of
    the partition, then [attendance.update({ where: { id } })]. *)
Definition check_out (st : Store) (now : Z) (r : jstr) (sess : option jstr)
  : response * Store :=
  match find (fun a => same_partition r sess a && is_open a) (attendances st) with
  | None => (NoActiveCheckIn, st)
  | Some a =>
      let updated := map (fun b => if att_id b =? att_id a then set_checkout now b else b)
                         (attendances st) in
      (CheckOutSuccessful (set_checkout now a), with_attendances st updated)
  end.

(** The two branches when the QR data's [registrationId] is an object
    that Prisma reads as a [StringFilter] [p]: [findFirst] keeps the rows
    whose registrationId passes [p]; [create] refuses an object for the
    column and throws. *)
Definition check_in_filter (st : Store) (p : jstr -> bool) (sess : option jstr)
  : response * Store :=
  match find (fun a => p (att_registrationId a) && opt_jstr_eqb (att_sessionId a) sess)
             (attendances st) with
  | Some existing => (AlreadyCheckedIn existing, st)
  | None => (InternalServerError, st)
  end.

Definition check_out_filter (st : Store) (now : Z) (p : jstr -> bool) (sess : option jstr)
  : response * Store :=
  match find (fun a => p (att_registrationId a) && opt_jstr_eqb (att_sessionId a) sess
                       && is_open a) (attendances st) with
  | None => (NoActiveCheckIn, st)
  | Some a =>
      let updated := map (fun b => if att_id b =? att_id a then set_checkout now b else b)
                         (attendances st) in
      (CheckOutSuccessful (set_checkout now a), with_attendances st updated)
  end.

(** ** The scan route (src/unnamed/part_007)

    The session and role checks at the top of the handler are not
    modelled: requests are those of an ADMIN or EVENT_ORGANIZER.  The body
    carries [qrData] as a string and, when present, [sessionId] and
    [action] as strings.  A Prisma query given an object for
    [registrationId] reads it as a [StringFilter]; one given any other
    value that is not a string throws a validation error, answered with
    status 500. *)

(** [/^[a-zA-Z0-9-_]+$/] *)
Definition is_id_char (c : N) : bool :=
  ((65 <=? c) && (c <=? 90)) || ((97 <=? c) && (c <=? 122)) || is_digit c
  || (c =? 45) || (c =? 95).

Definition matches_simple_id (s : jstr) : bool :=
  match s with
  | [] => false
  | _ => forallb is_id_char s
  end.

Definition nonempty (s : option jstr) : option jstr :=
  match s with
  | Some ((_ :: _) as v) => Some v
  | _ => None
  end.

Section Scan.
Context `{Runtime}.

(** The parsing stage: [qrCodeData] or [None] when the outer [catch]
    answers [Invalid QR code format]. *)
Definition parse_qr_data (qrData : jstr) : option json :=
  match json_parse qrData with
  | Some v => Some v
  | None =>
      if starts_with (js "http") qrData then
        match url_search_params qrData with
        | None => None
        | Some ps =>
            match nonempty (params_get ps (js "registrationId")),
                  nonempty (params_get ps (js "eventId")),
                  nonempty (params_get ps (js "userId")) with
            | Some registrationId, Some eventId, Some userId =>
                Some (JObj [(js "registrationId", JStr registrationId);
                            (js "eventId", JStr eventId); (js "userId", JStr userId)])
            | _, _, _ => None (* Missing required parameters in URL *)
            end
        end
      else if matches_simple_id qrData then
        Some (JObj [(js "registrationId", JStr qrData)])
      else json_parse (base64_utf8 qrData)
  end.

Definition received_preview (qrData : jstr) : jstr :=
  substring0 qrData 100 ++ (if Nat.ltb 100 (List.length qrData) then js "..." else []).

(** The three ticket queries; [None] when a query throws. *)
Definition find_ticket (st : Store) (qrData : jstr) (registrationId : json)
  : option (option Ticket) :=
  match find (fun t => opt_jstr_eqb (t_qrCodeData t) (Some qrData)) (tickets st) with
  | Some t => Some (Some t)
  | None =>
      match registrationId with
      | JStr r =>
          match find (fun t => jstr_eqb (t_registrationId t) r) (tickets st) with
          | Some t => Some (Some t)
          | None => Some (find (fun t => jstr_eqb (t_ticketNumber t) r) (tickets st))
          end
      | JObj ps =>
          match prisma_string_filter ps with
          | None => None
          | Some p =>
              match find (fun t => p (t_registrationId t)) (tickets st) with
              | Some t => Some (Some t)
              | None => Some (find (fun t => p (t_ticketNumber t)) (tickets st))
              end
          end
      | _ => None
      end
  end.

(** [include: { registration: { include: { event } } }]; the relations are
    required, so the join only fails on a store the schema rules out. *)
Definition ticket_registration (st : Store) (t : Ticket) : option (Registration * Event) :=
  match find (fun g => jstr_eqb (reg_id g) (t_registrationId t)) (registrations st) with
  | Some g =>
      match find (fun e => jstr_eqb (ev_id e) (reg_eventId g)) (events st) with
      | Some e => Some (g, e)
      | None => None
      end
  | None => None
  end.

Definition scannable (s : EventStatus.t) : bool :=
  match s with
  | EventStatus.PUBLISHED | EventStatus.ONGOING => true
  | _ => false
  end.

Definition is_confirmed (s : RegistrationStatus.t) : bool :=
  match s with RegistrationStatus.CONFIRMED => true | _ => false end.

(** The handler up to the ticket lookup: the answer it gives, or the
    [registrationId] of the QR data with the ticket found. *)
Definition scan_resolve (st : Store) (qrData : jstr) : response + (json * Ticket) :=
  match qrData with
  | [] => inl QrDataRequired
  | _ =>
      match parse_qr_data qrData with
      | None => inl (InvalidQrFormat (received_preview qrData))
      | Some JNull => inl InternalServerError (* destructuring null throws *)
      | Some qrCodeData =>
          let registrationId := get_prop qrCodeData (js "registrationId") in
          match registrationId with
          | Some rid =>
              if negb (truthy registrationId) then inl MissingRegistrationId
              else
                match find_ticket st qrData rid with
                | None => inl InternalServerError
                | Some None =>
                    inl (InvalidTicket rid (substring0 qrData 200) (firstn 5 (tickets st)))
                | Some (Some t) => inr (rid, t)
                end
          | None => inl MissingRegistrationId
          end
      end
  end.

(** The state checks on the ticket's registration and event at time [now]. *)
Definition scan_preconditions (st : Store) (now : Z) (t : Ticket)
  : response + (Registration * Event) :=
  match ticket_registration st t with
  | None => inl InternalServerError
  | Some (g, e) =>
      if negb (is_confirmed (reg_status g)) then inl RegistrationNotConfirmed
      else if negb (scannable (ev_status e)) then inl (EventNotAvailable (ev_status e))
      else if (now <? ev_startDate e)%Z then inl EventNotStarted
      else if (ev_endDate e <? now)%Z then inl EventEnded
      else inr (g, e)
  end.

(** Everything the handler does before it looks at [action]. *)
Definition scan_checks (st : Store) (now : Z) (qrData : jstr)
  : response + (json * Ticket * Registration * Event) :=
  match scan_resolve st qrData with
  | inl resp => inl resp
  | inr (rid, t) =>
      match scan_preconditions st now t with
      | inl resp => inl resp
      | inr (g, e) => inr (rid, t, g, e)
      end
  end.

(** [POST] of the scan route at time [now]; the answer and the store after
    the request. *)
Definition scan_post (st : Store) (now : Z) (qrData : jstr) (sessionId : option jstr)
    (action : option jstr) : response * Store :=
  match scan_checks st now qrData with
  | inl resp => (resp, st)
  | inr (rid, _, _, _) =>
      let sess := nonempty sessionId in
      let action := match action with Some a => a | None => js "checkin" end in
      if jstr_eqb action (js "checkin") then
        match rid with
        | JStr r => check_in st now r sess CheckInMethod.QR_CODE
        | JObj ps =>
            match prisma_string_filter ps with
            | Some p => check_in_filter st p sess
            | None => (InternalServerError, st)
            end
        | _ => (InternalServerError, st)
        end
      else if jstr_eqb action (js "checkout") then
        match rid with
        | JStr r => check_out st now r sess
        | JObj ps =>
            match prisma_string_filter ps with
            | Some p => check_out_filter st now p sess
            | None => (InternalServerError, st)
            end
        | _ => (InternalServerError, st)
        end
      else (InvalidAction, st)
  end.

End Scan.

(** ** The manual check-in route (src/src/app/api/attendance/route.ts)

    Same conventions as the scan route; [registrationId] is the body's
    property ([None] when absent). *)
Definition attendance_post (st : Store) (now : Z) (registrationId : option json)
    (sessionId : option jstr) : response * Store :=
  if negb (truthy registrationId) then (RegistrationIdRequired, st)
  else
    match registrationId with
    | Some (JStr r) =>
        match find (fun g => jstr_eqb (reg_id g) r) (registrations st) with
        | None => (RegistrationNotFound, st)
        | Some g =>
            if negb (is_confirmed (reg_status g)) then (RegistrationNotConfirmed, st)
            else check_in st now r (nonempty sessionId) CheckInMethod.MANUAL
        end
    | _ => (InternalServerError, st)
    end.

(** ** Sample runs *)

Definition sample_event : Event :=
  {| ev_id := js "e1"; ev_name := js "Expo"; ev_startDate := 1000; ev_endDate := 9000;
     ev_status := EventStatus.PUBLISHED |}.

Definition sample_registration : Registration :=
  {| reg_id := js "r1"; reg_status := RegistrationStatus.CONFIRMED;
     reg_eventId := js "e1"; reg_userId := js "u1" |}.

Definition sample_qr : jstr := generateQRCodeData None 500 (js "r1") (js "e1") (js "u1").

Definition sample_ticket : Ticket :=
  {| t_id := js "t1"; t_registrationId := js "r1"; t_ticketNumber := js "TK-1";
     t_qrCodeData := Some sample_qr |}.

Definition sample_store : Store :=
  {| events := [sample_event]; registrations := [sample_registration];
     tickets := [sample_ticket]; attendances := []; sessions := [] |}.

Definition empty_store : Store :=
  {| events := []; registrations := []; tickets := []; attendances := []; sessions := [] |}.

Example sample_check_in_twice :
  let '(r1, st1) := scan_post sample_store 2000 sample_qr None None in
  let '(r2, st2) := scan_post st1 2100 (js "r1") None None in
  status_code r1 = 200 /\ status_code r2 = 400 /\ List.length (attendances st2) = 1%nat.
Proof. vm_compute. auto. Qed.

Example sample_check_out :
  let '(_, st1) := scan_post sample_store 2000 sample_qr None None in
  let '(r2, st2) := scan_post st1 3000 sample_qr None (Some (js "checkout")) in
  let '(r3, _) := scan_post st2 3100 sample_qr None (Some (js "checkout")) in
  status_code r2 = 200 /\ r3 = NoActiveCheckIn
  /\ map att_checkOutTime (attendances st2) = [Some 3000%Z].
Proof. vm_compute. auto. Qed.

Example sample_not_started : fst (scan_post sample_store 999 sample_qr None None) = EventNotStarted.
Proof. vm_compute. reflexivity. Qed.

(** * Proofs *)

(** ** Strings and JSON texts *)

Lemma jstr_eqb_eq (a b : jstr) : jstr_eqb a b = true <-> a = b.
Proof.
  revert b; induction a as [|x a IH]; intros [|y b]; simpl;
    try (split; congruence).
  rewrite andb_true_iff, N.eqb_eq, IH. split; [intros [-> ->]; reflexivity|].
  intros H; injection H; auto.
Qed.

Lemma jstr_eqb_refl (a : jstr) : jstr_eqb a a = true.
Proof. apply jstr_eqb_eq; reflexivity. Qed.

Lemma jstr_eqb_neq (a b : jstr) : a <> b -> jstr_eqb a b = false.
Proof. intros Hne; destruct (jstr_eqb a b) eqn:E; [apply jstr_eqb_eq in E; contradiction|auto]. Qed.

Lemma hex_val_lower (d : N) : d < 16 -> hex_val (hex_lower d) = Some d.
Proof.
  intros Hd.
  assert (d = 0 \/ d = 1 \/ d = 2 \/ d = 3 \/ d = 4 \/ d = 5 \/ d = 6 \/ d = 7 \/ d = 8
          \/ d = 9 \/ d = 10 \/ d = 11 \/ d = 12 \/ d = 13 \/ d = 14 \/ d = 15) as Hc by lia.
  repeat destruct Hc as [->|Hc]; try reflexivity; subst; reflexivity.
Qed.

Lemma hex4_u_escape (c : N) : c < 65536 ->
  hex4 (hex_lower (N.shiftr c 12 mod 16)) (hex_lower (N.shiftr c 8 mod 16))
       (hex_lower (N.shiftr c 4 mod 16)) (hex_lower (c mod 16)) = Some c.
Proof.
  intros Hc. unfold hex4.
  rewrite !hex_val_lower by (apply N.mod_lt; discriminate).
  f_equal. rewrite !N.shiftr_div_pow2.
  change (2 ^ 12) with 4096. change (2 ^ 8) with 256. change (2 ^ 4) with 16.
  pose proof (N.div_mod c 16 ltac:(discriminate)) as E1.
  pose proof (N.div_mod (c / 16) 16 ltac:(discriminate)) as E2.
  rewrite N.Div0.div_div in E2.
  pose proof (N.div_mod (c / 256) 16 ltac:(discriminate)) as E3.
  rewrite N.Div0.div_div in E3.
  assert (c / 4096 < 16) by (apply N.Div0.div_lt_upper_bound; lia).
  rewrite (N.mod_small (c / 4096)) by assumption.
  simpl (16 * 16) in *. simpl (256 * 16) in *. lia.
Qed.

Lemma short_escape_some (c e : N) : short_escape c = Some e ->
  (e =? 117) = false /\ simple_escape e = Some c.
Proof.
  unfold short_escape; intros He.
  repeat match type of He with
         | context [c =? ?k] => destruct (N.eqb_spec c k) as [->|];
             [injection He as <-; split; reflexivity|]
         end; discriminate.
Qed.

Lemma short_escape_none (c : N) : short_escape c = None -> c <> 34 /\ c <> 92.
Proof.
  unfold short_escape; intros He.
  repeat match type of He with
         | context [c =? ?k] => destruct (N.eqb_spec c k); [discriminate|]
         end; auto.
Qed.

Lemma parse_chars_u_escape (c : N) (l : jstr) : c < 65536 ->
  parse_chars (u_escape c ++ l) =
  match parse_chars l with Some (x, rest) => Some (c :: x, rest) | None => None end.
Proof.
  intros Hc. unfold u_escape. cbn [app].
  change (parse_chars (92 :: 117 :: ?a :: ?b :: ?c :: ?d :: l))
    with (match hex4 a b c d with
          | Some u => match parse_chars l with
                      | Some (x, rest) => Some (u :: x, rest)
                      | None => None
                      end
          | None => None
          end).
  rewrite hex4_u_escape by exact Hc. reflexivity.
Qed.

Lemma parse_chars_plain (c : N) (l : jstr) : c <> 34 -> c <> 92 -> 32 <= c ->
  parse_chars (c :: l) =
  match parse_chars l with Some (x, rest) => Some (c :: x, rest) | None => None end.
Proof.
  intros H1 H2 H3. cbn [parse_chars].
  rewrite (proj2 (N.eqb_neq c 34) H1), (proj2 (N.eqb_neq c 92) H2).
  replace (c <? 32) with false by (symmetry; apply N.ltb_ge; exact H3). reflexivity.
Qed.

(** [JSON.parse] reads back what [JSON.stringify] writes for a string. *)
Lemma parse_chars_quote (s rest : jstr) :
  parse_chars (quote_units s ++ 34 :: rest) = Some (s, rest).
Proof.
  remember (List.length s) as n eqn:Hn. revert s Hn rest.
  induction n as [n IH] using (well_founded_induction lt_wf).
  intros [|c r] Hn rest; [reflexivity|].
  simpl in Hn. cbn [quote_units].
  destruct (short_escape c) as [e|] eqn:He.
  - apply short_escape_some in He as [He1 He2].
    simpl app. cbn [parse_chars]. simpl (92 =? 34); simpl (92 =? 92).
    rewrite He1, He2, (IH (List.length r)) by (auto; lia). reflexivity.
  - apply short_escape_none in He as [Hq Hb].
    destruct (c <? 32) eqn:Hlt.
    + apply N.ltb_lt in Hlt. rewrite <- app_assoc, parse_chars_u_escape by lia.
      rewrite (IH (List.length r)) by (auto; lia). reflexivity.
    + apply N.ltb_ge in Hlt.
      destruct (is_lead c) eqn:Hl.
      * unfold is_lead in Hl. apply andb_true_iff in Hl as [Hl1 Hl2].
        apply N.leb_le in Hl1, Hl2.
        destruct r as [|d r'].
        -- rewrite parse_chars_u_escape by lia. reflexivity.
        -- destruct (is_trail d) eqn:Ht.
           ++ unfold is_trail in Ht. apply andb_true_iff in Ht as [Ht1 Ht2].
              apply N.leb_le in Ht1, Ht2.
              simpl app. rewrite parse_chars_plain by lia.
              rewrite parse_chars_plain by lia.
              simpl in Hn. rewrite (IH (List.length r')) by (auto; lia). reflexivity.
           ++ rewrite <- app_assoc, parse_chars_u_escape by lia.
              rewrite (IH (List.length (d :: r'))) by (auto; simpl in *; lia). reflexivity.
      * destruct (is_trail c) eqn:Ht.
        -- unfold is_trail in Ht. apply andb_true_iff in Ht as [Ht1 Ht2].
           apply N.leb_le in Ht1, Ht2.
           rewrite <- app_assoc, parse_chars_u_escape by lia.
           rewrite (IH (List.length r)) by (auto; lia). reflexivity.
        -- simpl app. rewrite parse_chars_plain by auto.
           rewrite (IH (List.length r)) by (auto; lia). reflexivity.
Qed.

Lemma quote_app (s l : jstr) : quote s ++ l = 34 :: quote_units s ++ 34 :: l.
Proof. unfold quote. simpl. rewrite <- app_assoc. reflexivity. Qed.

Lemma parse_value_str (f : nat) (s rest : jstr) :
  parse_value (S f) (quote s ++ rest) = Some (JStr s, rest).
Proof.
  rewrite quote_app. simpl. rewrite parse_chars_quote. reflexivity.
Qed.

Lemma obj_set_fresh {A} (ps : list (jstr * A)) (k : jstr) (v : A) :
  ~ In k (map fst ps) -> obj_set ps k v = ps ++ [(k, v)].
Proof.
  induction ps as [|[k' v'] ps IH]; simpl; intros Hn; auto.
  rewrite jstr_eqb_neq by (intros ->; auto). rewrite IH; auto.
Qed.

(** A member [key:value] of an object with a string value, as
    [JSON.stringify] writes it. *)
Definition str_member (p : jstr * jstr) : jstr := quote (fst p) ++ 58 :: quote (snd p).

Definition str_fields (kvs : list (jstr * jstr)) : list (jstr * json) :=
  map (fun p => (fst p, JStr (snd p))) kvs.

Lemma parse_member_step (f : nat) (acc : list (jstr * json)) (k v X : jstr) :
  parse_members (S (S f)) acc (str_member (k, v) ++ X) =
  match skip_ws X with
  | 44 :: r4 => parse_members (S f) (obj_set acc k (JStr v)) r4
  | 125 :: r4 => Some (obj_set acc k (JStr v), r4)
  | _ => None
  end.
Proof.
  unfold str_member. simpl fst; simpl snd.
  rewrite <- app_assoc, quote_app. simpl.
  rewrite parse_chars_quote. simpl.
  rewrite <- app_assoc. cbn [app]. rewrite parse_chars_quote. reflexivity.
Qed.

Lemma skip_ws_nonws (c : N) (l : jstr) : is_ws c = false -> skip_ws (c :: l) = c :: l.
Proof. intros H; simpl; rewrite H; reflexivity. Qed.

Local Opaque join str_member.

Lemma parse_members_str (kvs : list (jstr * jstr)) : forall acc f rest,
  kvs <> [] -> (List.length kvs < f)%nat ->
  NoDup (map fst acc ++ map fst kvs) ->
  parse_members f acc (join [44] (map str_member kvs) ++ 125 :: rest)
  = Some (acc ++ str_fields kvs, rest).
Proof.
  induction kvs as [|[k v] kvs IH]; intros acc f rest Hne Hf Hnd; [congruence|].
  simpl in Hf. destruct f as [|[|f]]; [lia|lia|].
  assert (Hk : ~ In k (map fst acc)).
  { intros Hin. apply (NoDup_remove_2 (map fst acc) (map fst kvs) k Hnd).
    apply in_or_app; auto. }
  destruct kvs as [|kv2 kvs'].
  - Local Transparent join. cbn [map join]. Local Opaque join.
    rewrite parse_member_step. simpl skip_ws.
    rewrite obj_set_fresh by exact Hk. reflexivity.
  - Local Transparent join. cbn [map join]. Local Opaque join.
    rewrite <- app_assoc, parse_member_step. simpl skip_ws.
    rewrite obj_set_fresh by exact Hk.
    change (str_member kv2 :: map str_member kvs') with (map str_member (kv2 :: kvs')).
    rewrite IH.
    + rewrite <- app_assoc. reflexivity.
    + discriminate.
    + simpl in Hf |- *. lia.
    + rewrite map_app, <- app_assoc. exact Hnd.
Qed.

Local Transparent join str_member.

Definition key_not_index {A} (p : jstr * A) : bool :=
  match array_index (fst p) with None => true | Some _ => false end.

Lemma own_keys_fold_none {A} (ps : list (jstr * A)) acc :
  forallb key_not_index ps = true ->
  fold_left (fun acc p => match array_index (fst p) with
                          | Some n => insert_by_index n p acc
                          | None => acc
                          end) ps acc = acc.
Proof.
  revert acc; induction ps as [|p ps IH]; intros acc H; [reflexivity|].
  simpl in H. apply andb_true_iff in H as [Hp Hps]. simpl.
  unfold key_not_index in Hp. destruct (array_index (fst p)); [discriminate|].
  apply IH; exact Hps.
Qed.

Lemma own_keys_filter_none {A} (ps : list (jstr * A)) :
  forallb key_not_index ps = true ->
  filter (fun p => match array_index (fst p) with
                   | Some _ => false
                   | None => true
                   end) ps = ps.
Proof.
  induction ps as [|p ps IH]; intros H; [reflexivity|].
  simpl in H. apply andb_true_iff in H as [Hp Hps]. simpl.
  unfold key_not_index in Hp. destruct (array_index (fst p)); [discriminate|].
  rewrite IH; auto.
Qed.

Lemma own_keys_order_id {A} (ps : list (jstr * A)) :
  forallb key_not_index ps = true -> own_keys_order ps = ps.
Proof.
  intros Hall. unfold own_keys_order.
  rewrite own_keys_fold_none, own_keys_filter_none by exact Hall. reflexivity.
Qed.

Lemma stringify_str_obj `{Runtime} (kvs : list (jstr * jstr)) :
  forallb key_not_index kvs = true ->
  stringify (JObj (str_fields kvs)) = 123 :: join [44] (map str_member kvs) ++ [125].
Proof.
  intros Hidx. cbn [stringify].
  assert (E : map (fun '(k, x) => (k, stringify x)) (str_fields kvs)
              = map (fun p => (fst p, quote (snd p))) kvs).
  { unfold str_fields. rewrite map_map. apply map_ext. intros [k v]; reflexivity. }
  rewrite E, own_keys_order_id.
  - rewrite map_map. reflexivity.
  - rewrite forallb_forall in Hidx |- *. intros x Hx.
    apply in_map_iff in Hx as [[k v] [<- Hin]]. apply (Hidx _ Hin).
Qed.

Lemma length_join (sep : jstr) (l : list jstr) :
  (forall x, In x l -> x <> []) -> (List.length l <= List.length (join sep l))%nat.
Proof.
  induction l as [|x l IH]; intros Hne; [simpl; lia|].
  assert (Hx : x <> []) by (apply Hne; left; reflexivity).
  destruct x as [|c x]; [congruence|].
  destruct l as [|y l]; [simpl; lia|].
  assert (H := IH (fun z Hz => Hne z (or_intror Hz))).
  change (join sep ((c :: x) :: y :: l)) with ((c :: x) ++ sep ++ join sep (y :: l)).
  rewrite !length_app. change (List.length (y :: l)) with (S (List.length l)) in H.
  cbn [List.length] in *. lia.
Qed.

Lemma parse_value_obj_open (f : nat) (t : jstr) :
  parse_value (S f) (123 :: 34 :: t) =
  match parse_members f [] (34 :: t) with
  | Some (ps, r') => Some (JObj ps, r')
  | None => None
  end.
Proof. reflexivity. Qed.

(** [JSON.parse(JSON.stringify(o))] gives back [o] for an object of
    string-valued properties with distinct, non-index keys. *)
Lemma json_parse_str_obj `{Runtime} (kvs : list (jstr * jstr)) :
  kvs <> [] -> NoDup (map fst kvs) -> forallb key_not_index kvs = true ->
  json_parse (stringify (JObj (str_fields kvs))) = Some (JObj (str_fields kvs)).
Proof.
  intros Hne Hnd Hidx. rewrite stringify_str_obj by exact Hidx.
  destruct kvs as [|[k v] kvs']; [congruence|].
  assert (Hlen : (List.length ((k, v) :: kvs') <=
                  List.length (join [44%N] (map str_member ((k, v) :: kvs'))))%nat).
  { rewrite <- (length_map str_member). apply length_join.
    intros x Hx. apply in_map_iff in Hx as [[k' v'] [<- _]].
    unfold str_member. rewrite quote_app. discriminate. }
  assert (Hhead : exists t, join [44] (map str_member ((k, v) :: kvs')) ++ [125] = 34 :: t).
  { cbn [map]. destruct (map str_member kvs'); cbn [join];
      unfold str_member; simpl fst; simpl snd; rewrite quote_app; eexists; reflexivity. }
  unfold json_parse. destruct Hhead as [t Ht].
  remember (join [44] (map str_member ((k, v) :: kvs'))) as body eqn:Hbody.
  cbn [List.length]. rewrite Ht, parse_value_obj_open, <- Ht, Hbody.
  rewrite parse_members_str.
  - reflexivity.
  - discriminate.
  - rewrite <- Hbody, length_app. simpl length in *. lia.
  - exact Hnd.
Qed.

(** ** Signing and verification *)

(** The six members of a payload written by [generateQRCodeData], in
    the order the object literal [{ ...data, hash }] creates them. *)
Definition signed_fields (registrationId eventId userId timestamp hash : jstr)
  : list (jstr * jstr) :=
  [(js "registrationId", registrationId); (js "eventId", eventId);
   (js "userId", userId); (js "timestamp", timestamp);
   (js "type", js "EVENT_TICKET"); (js "hash", hash)].

Lemma signed_fields_json (r e u ts h : jstr) :
  str_fields (signed_fields r e u ts h) = ticket_data r e u ts ++ [(js "hash", JStr h)].
Proof. reflexivity. Qed.

Lemma signed_fields_keys (r e u ts h : jstr) :
  NoDup (map fst (signed_fields r e u ts h)) /\
  forallb key_not_index (signed_fields r e u ts h) = true.
Proof.
  split; [|reflexivity].
  cbn [map fst signed_fields].
  repeat constructor; cbn [In]; intuition discriminate.
Qed.

Lemma json_parse_signed `{Runtime} (r e u ts h : jstr) :
  json_parse (stringify (JObj (ticket_data r e u ts ++ [(js "hash", JStr h)])))
  = Some (JObj (ticket_data r e u ts ++ [(js "hash", JStr h)])).
Proof.
  rewrite <- signed_fields_json. destruct (signed_fields_keys r e u ts h) as [Hnd Hidx].
  apply json_parse_str_obj; [discriminate | exact Hnd | exact Hidx].
Qed.

(** [hoursDiff > 24] is false exactly up to 24 hours in milliseconds. *)
Lemma hoursDiff_le_24 (now t : Z) :
  Qle_bool (hoursDiff now t) (inject_Z 24) = true <-> (now - t <= 86400000)%Z.
Proof.
  rewrite Qle_bool_iff. unfold Qle, hoursDiff. cbn [Qnum Qden inject_Z]. lia.
Qed.

Section Roundtrip.
Context `{RT : Runtime}.

Lemma truthy_str (s : jstr) : s <> [] -> truthy (Some (JStr s)) = true.
Proof. destruct s; [congruence | reflexivity]. Qed.

(** C1: with the same secret, a payload issued at [t0] by
    [generateQRCodeData] verifies at any [now] at most 24 hours later and
    gives back its fields unchanged, provided registrationId and eventId
    are non-empty, the digest is non-empty and [new Date] reads the issued
    ISO timestamp back as [t0].  With an empty registrationId or eventId
    the payload is always rejected as malformed. *)
Theorem generate_verify_roundtrip (env : option jstr) (now t0 : Z) (r e u : jstr) :
  (r <> [] -> e <> [] ->
   hmac_sha256_hex (secret_of env) (stringify (JObj (ticket_data r e u (iso_string t0)))) <> [] ->
   date_value (Some (JStr (iso_string t0))) = Some t0 ->
   (now - t0 <= 86400000)%Z ->
   verifyQRCodeData env now (generateQRCodeData env t0 r e u)
   = VValid (JObj (ticket_data r e u (iso_string t0)
       ++ [(js "hash", JStr (hmac_sha256_hex (secret_of env)
                              (stringify (JObj (ticket_data r e u (iso_string t0))))))]))) /\
  (r = [] \/ e = [] ->
   verifyQRCodeData env now (generateQRCodeData env t0 r e u) = VInvalid InvalidFormat).
Proof.
  split.
  2:{ intros Hre. unfold generateQRCodeData, verifyQRCodeData. cbv zeta.
      rewrite json_parse_signed. cbv iota beta.
      change (get_prop (JObj (ticket_data r e u (iso_string t0) ++ _)) (js "registrationId"))
        with (Some (JStr r)).
      change (get_prop (JObj (ticket_data r e u (iso_string t0) ++ _)) (js "eventId"))
        with (Some (JStr e)).
      destruct Hre as [-> | ->]; cbn [truthy negb]; rewrite ?orb_true_r; reflexivity. }
  intros Hr He Hh Hd Ht.
  unfold generateQRCodeData, verifyQRCodeData. cbv zeta.
  set (ts := iso_string t0) in *.
  set (h := hmac_sha256_hex (secret_of env) (stringify (JObj (ticket_data r e u ts)))) in *.
  rewrite json_parse_signed.
  assert (G1 : obj_get (ticket_data r e u ts ++ [(js "hash", JStr h)]) (js "hash")
               = Some (JStr h)) by reflexivity.
  assert (G2 : obj_remove (ticket_data r e u ts ++ [(js "hash", JStr h)]) (js "hash")
               = ticket_data r e u ts) by reflexivity.
  cbv iota beta. rewrite G1, G2.
  change (get_prop (JObj (ticket_data r e u ts ++ [(js "hash", JStr h)])) (js "registrationId"))
    with (Some (JStr r)).
  change (get_prop (JObj (ticket_data r e u ts ++ [(js "hash", JStr h)])) (js "eventId"))
    with (Some (JStr e)).
  change (get_prop (JObj (ticket_data r e u ts ++ [(js "hash", JStr h)])) (js "timestamp"))
    with (Some (JStr ts)).
  rewrite (truthy_str h Hh), (truthy_str r Hr), (truthy_str e He). cbn [negb orb].
  unfold strict_eq_str. fold h. rewrite jstr_eqb_refl. cbn [negb].
  rewrite Hd. apply hoursDiff_le_24 in Ht. rewrite Ht. reflexivity.
Qed.

End Roundtrip.

(** The C1 round trip, run with the sample runtime: issued at 1000 ms and
    verified 24 hours later; and the same payload issued with an empty
    eventId. *)
Lemma generate_verify_roundtrip_witness :
  verifyQRCodeData None 86401000 (generateQRCodeData None 1000 (js "r1") (js "e1") (js "u1"))
  = VValid (JObj (ticket_data (js "r1") (js "e1") (js "u1") (iso_string 1000)
      ++ [(js "hash", JStr (hmac_sha256_hex (secret_of None)
             (stringify (JObj (ticket_data (js "r1") (js "e1") (js "u1") (iso_string 1000))))))])) /\
  verifyQRCodeData None 2000 (generateQRCodeData None 1000 (js "r1") [] (js "u1"))
  = VInvalid InvalidFormat.
Proof.
  split.
  2:{ apply (proj2 (generate_verify_roundtrip None 2000 1000 (js "r1") [] (js "u1"))).
      right. reflexivity. }
  apply (proj1 (generate_verify_roundtrip None 86401000 1000 (js "r1") (js "e1") (js "u1"))).
  - discriminate.
  - discriminate.
  - vm_compute. intros E. discriminate E.
  - vm_compute. reflexivity.
  - lia.
Defined.

(** C1 fails for an empty registrationId: the payload is rejected as
    malformed before its hash is compared. *)
Lemma generate_verify_empty_registration :
  verifyQRCodeData None 1000 (generateQRCodeData None 1000 [] (js "e1") (js "u1"))
  = VInvalid InvalidFormat.
Proof. vm_compute. reflexivity. Qed.

Section Expiry.
Context `{RT : Runtime}.

(** C5: a payload that passes the format and signature checks and whose
    timestamp [new Date] reads as [t] is rejected as expired exactly when
    [now - t] exceeds 24 hours (86400000 ms); at exactly 24 hours, and
    below, it is accepted. *)
Theorem verify_expiry (env : option jstr) (now t : Z) (s : jstr) (ps : list (jstr * json)) :
  json_parse s = Some (JObj ps) ->
  truthy (obj_get ps (js "hash")) = true ->
  truthy (obj_get ps (js "registrationId")) = true ->
  truthy (obj_get ps (js "eventId")) = true ->
  strict_eq_str (obj_get ps (js "hash"))
    (hmac_sha256_hex (secret_of env) (stringify (JObj (obj_remove ps (js "hash"))))) = true ->
  date_value (obj_get ps (js "timestamp")) = Some t ->
  (verifyQRCodeData env now s = VInvalid Expired <-> (now - t > 86400000)%Z) /\
  ((now - t <= 86400000)%Z -> verifyQRCodeData env now s = VValid (JObj ps)).
Proof.
  intros Hp Hh Hr He Hs Hd.
  unfold verifyQRCodeData. rewrite Hp. cbv zeta iota beta. cbn [get_prop].
  rewrite Hh, Hr, He, Hs, Hd. cbn [negb orb].
  destruct (Qle_bool (hoursDiff now t) (inject_Z 24)) eqn:Hq.
  - apply hoursDiff_le_24 in Hq. cbn [negb]. split; [split; [discriminate | lia] | reflexivity].
  - assert (Hgt : ~ (now - t <= 86400000)%Z) by (rewrite <- hoursDiff_le_24; congruence).
    cbn [negb]. split; [split; [lia | reflexivity] | lia].
Qed.

End Expiry.

(** C5 at the boundary, with the sample runtime: a payload issued at
    1000 ms is still accepted at 86401000 ms. *)
Lemma verify_expiry_witness :
  (verifyQRCodeData None 86401000 (generateQRCodeData None 1000 (js "r1") (js "e1") (js "u1"))
     = VInvalid Expired <-> (86401000 - 1000 > 86400000)%Z) /\
  ((86401000 - 1000 <= 86400000)%Z ->
   verifyQRCodeData None 86401000 (generateQRCodeData None 1000 (js "r1") (js "e1") (js "u1"))
   = VValid (JObj (ticket_data (js "r1") (js "e1") (js "u1") (iso_string 1000)
      ++ [(js "hash", JStr (hmac_sha256_hex (secret_of None)
             (stringify (JObj (ticket_data (js "r1") (js "e1") (js "u1") (iso_string 1000))))))]))).
Proof.
  apply verify_expiry.
  - apply json_parse_signed.
  - vm_compute. reflexivity.
  - vm_compute. reflexivity.
  - vm_compute. reflexivity.
  - vm_compute. reflexivity.
  - vm_compute. reflexivity.
Defined.

(** ** The signing secret *)

Section Secret.
Context `{RT : Runtime}.

(** C9 (as the code has it): with [NEXTAUTH_SECRET] unset or empty,
    generation and verification do not fail; they compute exactly what
    they compute with the secret set to the constant ['fallback-secret']. *)
Theorem unset_secret_uses_fallback (now t : Z) (r e u s : jstr) :
  generateQRCodeData None t r e u = generateQRCodeData (Some (js "fallback-secret")) t r e u /\
  generateQRCodeData (Some []) t r e u = generateQRCodeData (Some (js "fallback-secret")) t r e u /\
  verifyQRCodeData None now s = verifyQRCodeData (Some (js "fallback-secret")) now s /\
  verifyQRCodeData (Some []) now s = verifyQRCodeData (Some (js "fallback-secret")) now s.
Proof. repeat split. Qed.

End Secret.

(** Against C9, with the sample runtime: with the secret unset a payload
    is generated, signed under the key ['fallback-secret'], and verifies. *)
Lemma unset_secret_verifies :
  generateQRCodeData None 1000 (js "r1") (js "e1") (js "u1")
  = stringify (JObj (ticket_data (js "r1") (js "e1") (js "u1") (sample_iso 1000)
      ++ [(js "hash", JStr (sample_mac (js "fallback-secret")
             (stringify (JObj (ticket_data (js "r1") (js "e1") (js "u1") (sample_iso 1000))))))]))
  /\ verifyQRCodeData None 2000 (generateQRCodeData None 1000 (js "r1") (js "e1") (js "u1"))
     = VValid (JObj (ticket_data (js "r1") (js "e1") (js "u1") (sample_iso 1000)
      ++ [(js "hash", JStr (sample_mac (js "fallback-secret")
             (stringify (JObj (ticket_data (js "r1") (js "e1") (js "u1") (sample_iso 1000))))))])).
Proof. split; vm_compute; reflexivity. Qed.

(** ** Attendance rows *)

(** A row of the partition [(registrationId, sessionId || null)]. *)
Definition in_partition (st : Store) (r : jstr) (sess : option jstr) (a : Attendance) : Prop :=
  In a (attendances st) /\ att_registrationId a = r /\ att_sessionId a = sess.

(** The registration [r] and the session [sess] (if any) are rows of the
    store. *)
Definition registration_named (st : Store) (r : jstr) : Prop :=
  exists g, In g (registrations st) /\ reg_id g = r.

Definition session_named (st : Store) (sess : option jstr) : Prop :=
  match sess with
  | None => True
  | Some s => In s (sessions st)
  end.

(** What a check-in does: refuse, leaving the store as it is, when the
    partition has a row, whatever its state; otherwise fail with status
    500, leaving the store as it is, when the registration or the session
    is not a row, and else append one new row, checked in at [now], not
    checked out, with the given method. *)
Definition check_in_outcome (st : Store) (now : Z) (r : jstr) (sess : option jstr)
    (method : CheckInMethod.t) (res : response * Store) : Prop :=
  ((exists a, in_partition st r sess a) ->
     exists existing, in_partition st r sess existing /\ res = (AlreadyCheckedIn existing, st)) /\
  (~ (exists a, in_partition st r sess a) ->
     ~ (registration_named st r /\ session_named st sess) -> res = (InternalServerError, st)) /\
  (~ (exists a, in_partition st r sess a) ->
     registration_named st r -> session_named st sess ->
     exists a, res = (CheckInSuccessful a, with_attendances st (attendances st ++ [a])) /\
       att_registrationId a = r /\ att_sessionId a = sess /\
       att_checkInTime a = Some now /\ att_checkOutTime a = None /\
       att_method a = method /\ ~ In (att_id a) (map att_id (attendances st))).

Lemma opt_jstr_eqb_eq (a b : option jstr) : opt_jstr_eqb a b = true <-> a = b.
Proof.
  destruct a as [x|], b as [y|]; cbn [opt_jstr_eqb];
    try (split; intros H; [discriminate H | discriminate H]).
  - rewrite jstr_eqb_eq. split; [intros ->; reflexivity | intros H; injection H; auto].
  - split; reflexivity.
Qed.

Lemma same_partition_iff (r : jstr) (sess : option jstr) (a : Attendance) :
  same_partition r sess a = true <-> att_registrationId a = r /\ att_sessionId a = sess.
Proof.
  unfold same_partition. rewrite andb_true_iff, jstr_eqb_eq, opt_jstr_eqb_eq. reflexivity.
Qed.

Lemma max_ids_ge (atts : list Attendance) (a : Attendance) :
  In a atts -> att_id a <= fold_right N.max 0 (map att_id atts).
Proof.
  induction atts as [|b atts IH]; intros Hin; [destruct Hin|].
  destruct Hin as [<-|Hin]; cbn [map fold_right]; [lia|].
  specialize (IH Hin). lia.
Qed.

Lemma fresh_id_fresh (atts : list Attendance) : ~ In (fresh_id atts) (map att_id atts).
Proof.
  intros Hin. apply in_map_iff in Hin as [a [Ha Hin]].
  apply max_ids_ge in Hin. unfold fresh_id in Ha. lia.
Qed.

Lemma registration_exists_iff (st : Store) (r : jstr) :
  registration_exists st r = true <-> registration_named st r.
Proof.
  unfold registration_exists, registration_named. rewrite existsb_exists.
  split; intros [g [Hin Hg]]; exists g; split; try exact Hin.
  - apply jstr_eqb_eq, Hg.
  - apply jstr_eqb_eq, Hg.
Qed.

Lemma session_exists_iff (st : Store) (sess : option jstr) :
  session_exists st sess = true <-> session_named st sess.
Proof.
  destruct sess as [s|]; cbn [session_exists session_named]; [|tauto].
  rewrite existsb_exists. split.
  - intros [x [Hin Hx]]. apply jstr_eqb_eq in Hx. subst x. exact Hin.
  - intros Hin. exists s. split; [exact Hin | apply jstr_eqb_refl].
Qed.

Lemma check_in_meets_outcome (st : Store) (now : Z) (r : jstr) (sess : option jstr)
    (method : CheckInMethod.t) :
  check_in_outcome st now r sess method (check_in st now r sess method).
Proof.
  unfold check_in_outcome, check_in, in_partition.
  destruct (find (same_partition r sess) (attendances st)) as [x|] eqn:Hf.
  - apply find_some in Hf as [Hin Hx]. apply same_partition_iff in Hx as [Hr Hs].
    split; [|split].
    + intros _. exists x. auto.
    + intros Hno. exfalso. apply Hno. exists x. auto.
    + intros Hno. exfalso. apply Hno. exists x. auto.
  - assert (Hnone : ~ (exists a, In a (attendances st) /\ att_registrationId a = r /\
                                 att_sessionId a = sess)).
    { intros [a [Hin [Hr Hs]]].
      assert (Hp := find_none _ _ Hf a Hin). cbv beta in Hp.
      rewrite (proj2 (same_partition_iff r sess a) (conj Hr Hs)) in Hp. discriminate. }
    split; [intros H; exfalso; exact (Hnone H)|]. split.
    + intros _ Hn.
      destruct (negb (registration_exists st r) || negb (session_exists st sess)) eqn:E;
        [reflexivity|].
      exfalso. apply Hn. apply orb_false_iff in E as [E1 E2].
      apply negb_false_iff in E1, E2.
      split; [apply registration_exists_iff, E1 | apply session_exists_iff, E2].
    + intros _ Hg Hs.
      rewrite (proj2 (registration_exists_iff st r) Hg), (proj2 (session_exists_iff st sess) Hs).
      cbn [negb orb]. eexists. split; [reflexivity|].
      cbn. repeat split; try reflexivity. apply fresh_id_fresh.
Qed.

Lemma find_unique {A} (f : A -> jstr) (l : list A) (x : A) (k : jstr) :
  NoDup (map f l) -> In x l -> f x = k -> find (fun y => jstr_eqb (f y) k) l = Some x.
Proof.
  induction l as [|y l IH]; intros Hnd Hin Hk; [destruct Hin|].
  cbn [map] in Hnd. apply NoDup_cons_iff in Hnd as [Hy Hnd]. cbn [find].
  destruct Hin as [<-|Hin].
  - rewrite Hk, jstr_eqb_refl. reflexivity.
  - destruct (jstr_eqb (f y) k) eqn:E.
    + apply jstr_eqb_eq in E. exfalso. apply Hy. rewrite E, <- Hk. apply in_map, Hin.
    + apply IH; assumption.
Qed.

Section CheckIn.
Context `{RT : Runtime}.


End CheckIn.


(** ** Check-out *)

Definition open_in_partition (st : Store) (r : jstr) (sess : option jstr) (a : Attendance) : Prop :=
  in_partition st r sess a /\ is_open a = true.

(** What a check-out must do: refuse, leaving the store as it is, when
    the partition has no open row; otherwise set [checkOutTime = now] on
    an open row of the partition and change no other row. *)
Definition check_out_outcome (st : Store) (now : Z) (r : jstr) (sess : option jstr)
    (res : response * Store) : Prop :=
  (~ (exists a, open_in_partition st r sess a) -> res = (NoActiveCheckIn, st)) /\
  ((exists a, open_in_partition st r sess a) ->
     exists pre a post, attendances st = pre ++ a :: post /\ open_in_partition st r sess a /\
       res = (CheckOutSuccessful (set_checkout now a),
              with_attendances st (pre ++ set_checkout now a :: post))).

Lemma find_split {A} (p : A -> bool) (l : list A) (x : A) :
  find p l = Some x -> exists pre post, l = pre ++ x :: post.
Proof.
  induction l as [|y l IH]; intros Hf; [discriminate|].
  cbn [find] in Hf. destruct (p y).
  - injection Hf as <-. exists [], l. reflexivity.
  - destruct (IH Hf) as [pre [post ->]]. exists (y :: pre), post. reflexivity.
Qed.

Lemma map_update_one (now : Z) (pre post : list Attendance) (a : Attendance) :
  NoDup (map att_id (pre ++ a :: post)) ->
  map (fun b => if att_id b =? att_id a then set_checkout now b else b) (pre ++ a :: post)
  = pre ++ set_checkout now a :: post.
Proof.
  intros Hnd. rewrite map_app in Hnd. cbn [map] in Hnd.
  apply NoDup_remove in Hnd as [_ Hnot].
  rewrite map_app. cbn [map]. rewrite N.eqb_refl. f_equal.
  - rewrite <- (map_id pre) at 2. apply map_ext_in. intros b Hb.
    destruct (N.eqb_spec (att_id b) (att_id a)) as [E|E]; [|reflexivity].
    exfalso. apply Hnot. apply in_or_app. left. rewrite <- E. apply in_map, Hb.
  - f_equal. rewrite <- (map_id post) at 2. apply map_ext_in. intros b Hb.
    destruct (N.eqb_spec (att_id b) (att_id a)) as [E|E]; [|reflexivity].
    exfalso. apply Hnot. apply in_or_app. right. rewrite <- E. apply in_map, Hb.
Qed.

Lemma check_out_meets_outcome (st : Store) (now : Z) (r : jstr) (sess : option jstr) :
  NoDup (map att_id (attendances st)) ->
  check_out_outcome st now r sess (check_out st now r sess).
Proof.
  intros Hnd. unfold check_out_outcome, check_out, open_in_partition, in_partition.
  destruct (find (fun a => same_partition r sess a && is_open a) (attendances st)) as [x|] eqn:Hf.
  - pose proof Hf as Hs. apply find_some in Hs as [Hin Hx].
    apply andb_true_iff in Hx as [Hx Ho]. apply same_partition_iff in Hx as [Hr Hsess].
    destruct (find_split _ _ _ Hf) as [pre [post Hl]].
    split.
    + intros Hno. exfalso. apply Hno. exists x. auto.
    + intros _. exists pre, x, post. split; [exact Hl|]. split; [auto|].
      rewrite Hl in Hnd |- *. rewrite map_update_one by exact Hnd. reflexivity.
  - split.
    + intros _. reflexivity.
    + intros [a [[Hin [Hr Hs]] Ho]]. exfalso.
      assert (Hp := find_none _ _ Hf a Hin). cbv beta in Hp.
      rewrite (proj2 (same_partition_iff r sess a) (conj Hr Hs)), Ho in Hp. discriminate.
Qed.

Section CheckOut.
Context `{RT : Runtime}.

(** C3: a check-out scan (once the ticket and the state checks passed,
    with the QR data's registrationId [r]) answers [NoActiveCheckIn],
    leaving the store as it is, exactly when no row of
    [(r, sessionId || null)] is open; otherwise it sets [checkOutTime =
    now] on an open row of the partition and changes no other row (row
    ids being unique).  In particular it is refused when the partition has
    no row at all. *)
Theorem check_out_route (st : Store) (now : Z) (qrData : jstr) (sessionId : option jstr)
    (r : jstr) (t : Ticket) (g : Registration) (e : Event) :
  scan_checks st now qrData = inr (JStr r, t, g, e) ->
  NoDup (map att_id (attendances st)) ->
  check_out_outcome st now r (nonempty sessionId)
    (scan_post st now qrData sessionId (Some (js "checkout"))) /\
  ((forall a, ~ in_partition st r (nonempty sessionId) a) ->
   scan_post st now qrData sessionId (Some (js "checkout")) = (NoActiveCheckIn, st)).
Proof.
  intros Hc Hnd.
  assert (E : scan_post st now qrData sessionId (Some (js "checkout"))
              = check_out st now r (nonempty sessionId)).
  { unfold scan_post. rewrite Hc. reflexivity. }
  rewrite E. pose proof (check_out_meets_outcome st now r (nonempty sessionId) Hnd) as Ho.
  split; [exact Ho|].
  intros Hnone. apply (proj1 Ho). intros [a [Hp _]]. exact (Hnone a Hp).
Qed.

End CheckOut.

(** C3 on the sample store, which has no attendance row yet. *)
Lemma check_out_route_witness :
  check_out_outcome sample_store 5000 (js "r1") None
    (scan_post sample_store 5000 sample_qr None (Some (js "checkout"))) /\
  ((forall a, ~ in_partition sample_store (js "r1") None a) ->
   scan_post sample_store 5000 sample_qr None (Some (js "checkout")) = (NoActiveCheckIn, sample_store)).
Proof.
  apply (check_out_route sample_store 5000 sample_qr None (js "r1")
           sample_ticket sample_registration sample_event).
  - vm_compute. reflexivity.
  - vm_compute. constructor.
Defined.

(** ** The state checks of the scan route *)

Section StateChecks.
Context `{RT : Runtime}.

(** C4: once the QR data resolved to a ticket whose registration [g] and
    event [e] exist, a scan (any action) fails with one of the four state
    errors, leaving the store as it is, unless [g] is CONFIRMED, [e] is
    PUBLISHED or ONGOING and [now] lies in [[startDate, endDate]]; when
    all three hold the checks pass.  The checks run in that order: with
    the first two satisfied, a scan before [startDate] gets
    [EventNotStarted] and a scan after [endDate] (of an event that does not
    end before it starts) gets [EventEnded]. *)
Theorem scan_state_checks (st : Store) (now : Z) (qrData : jstr) (sessionId action : option jstr)
    (rid : json) (t : Ticket) (g : Registration) (e : Event) :
  scan_resolve st qrData = inr (rid, t) ->
  ticket_registration st t = Some (g, e) ->
  (~ (reg_status g = RegistrationStatus.CONFIRMED /\ scannable (ev_status e) = true /\
      (ev_startDate e <= now <= ev_endDate e)%Z) ->
   exists err, scan_post st now qrData sessionId action = (err, st) /\
     (err = RegistrationNotConfirmed \/ err = EventNotAvailable (ev_status e) \/
      err = EventNotStarted \/ err = EventEnded)) /\
  (reg_status g = RegistrationStatus.CONFIRMED -> scannable (ev_status e) = true ->
   (ev_startDate e <= now <= ev_endDate e)%Z ->
   scan_checks st now qrData = inr (rid, t, g, e)) /\
  (reg_status g = RegistrationStatus.CONFIRMED -> scannable (ev_status e) = true ->
   (now < ev_startDate e)%Z ->
   scan_post st now qrData sessionId action = (EventNotStarted, st)) /\
  (reg_status g = RegistrationStatus.CONFIRMED -> scannable (ev_status e) = true ->
   (ev_startDate e <= ev_endDate e)%Z -> (ev_endDate e < now)%Z ->
   scan_post st now qrData sessionId action = (EventEnded, st)).
Proof.
  intros Hres Htr.
  assert (Hpost : forall resp, scan_preconditions st now t = inl resp ->
                  scan_post st now qrData sessionId action = (resp, st)).
  { intros resp Hp. unfold scan_post, scan_checks. rewrite Hres, Hp. reflexivity. }
  assert (Hchk : scan_checks st now qrData =
                 match scan_preconditions st now t with
                 | inl resp => inl resp
                 | inr (g', e') => inr (rid, t, g', e')
                 end).
  { unfold scan_checks. rewrite Hres. reflexivity. }
  unfold scan_preconditions in Hpost, Hchk. rewrite Htr in Hpost, Hchk.
  repeat split.
  - intros Hnot.
    destruct (reg_status g) eqn:Hs; cbn [is_confirmed negb] in Hpost;
      try (eexists; split; [apply Hpost; reflexivity | left; reflexivity]).
    destruct (scannable (ev_status e)) eqn:Hsc; cbn [negb] in Hpost;
      [| eexists; split; [apply Hpost; reflexivity | right; left; reflexivity]].
    destruct (now <? ev_startDate e)%Z eqn:H1;
      [eexists; split; [apply Hpost; reflexivity | right; right; left; reflexivity]|].
    destruct (ev_endDate e <? now)%Z eqn:H2;
      [eexists; split; [apply Hpost; reflexivity | right; right; right; reflexivity]|].
    exfalso. apply Hnot. apply Z.ltb_ge in H1, H2. auto.
  - intros Hs Hsc [H1 H2]. rewrite Hchk, Hs, Hsc. cbn [is_confirmed negb].
    apply Z.ltb_ge in H1, H2. rewrite H1, H2. reflexivity.
  - intros Hs Hsc H1. apply Hpost. rewrite Hs, Hsc. cbn [is_confirmed negb].
    apply Z.ltb_lt in H1. rewrite H1. reflexivity.
  - intros Hs Hsc H0 H2. apply Hpost. rewrite Hs, Hsc. cbn [is_confirmed negb].
    assert (H1 : (now <? ev_startDate e)%Z = false) by (apply Z.ltb_ge; lia).
    apply Z.ltb_lt in H2. rewrite H1, H2. reflexivity.
Qed.

End StateChecks.

(** C4 on the sample store: the sample event runs from 1000 to 9000. *)
Lemma scan_state_checks_witness :
  (~ (reg_status sample_registration = RegistrationStatus.CONFIRMED /\
      scannable (ev_status sample_event) = true /\
      (ev_startDate sample_event <= 999 <= ev_endDate sample_event)%Z) ->
   exists err, scan_post sample_store 999 sample_qr None None = (err, sample_store) /\
     (err = RegistrationNotConfirmed \/ err = EventNotAvailable (ev_status sample_event) \/
      err = EventNotStarted \/ err = EventEnded)) /\
  (reg_status sample_registration = RegistrationStatus.CONFIRMED ->
   scannable (ev_status sample_event) = true ->
   (ev_startDate sample_event <= 999 <= ev_endDate sample_event)%Z ->
   scan_checks sample_store 999 sample_qr
   = inr (JStr (js "r1"), sample_ticket, sample_registration, sample_event)) /\
  (reg_status sample_registration = RegistrationStatus.CONFIRMED ->
   scannable (ev_status sample_event) = true ->
   (999 < ev_startDate sample_event)%Z -> scan_post sample_store 999 sample_qr None None = (EventNotStarted, sample_store)) /\
  (reg_status sample_registration = RegistrationStatus.CONFIRMED ->
   scannable (ev_status sample_event) = true ->
   (ev_startDate sample_event <= ev_endDate sample_event)%Z ->
   (ev_endDate sample_event < 999)%Z -> scan_post sample_store 999 sample_qr None None = (EventEnded, sample_store)).
Proof.
  apply (scan_state_checks sample_store 999 sample_qr None None (JStr (js "r1")) sample_ticket).
  - vm_compute. reflexivity.
  - vm_compute. reflexivity.
Defined.

(** ** Resolving the scanned text *)

(** No JSON text starts with [h]. *)
Lemma json_parse_h (r : jstr) : json_parse (104 :: r) = None.
Proof. reflexivity. Qed.

Lemma json_parse_http (s : jstr) : starts_with (js "http") s = true -> json_parse s = None.
Proof.
  destruct s as [|c s]; [discriminate|]. cbn [js String.list_ascii_of_string map starts_with].
  intros H. apply andb_true_iff in H as [Hc _]. apply N.eqb_eq in Hc. subst c.
  apply json_parse_h.
Qed.

Section Resolve.
Context `{RT : Runtime}.

(** C7 (as the code has it): a scanned text starting with [http] whose
    URL parses resolves exactly when the [registrationId], [eventId] and
    [userId] query parameters are all present and non-empty, to the object
    of the three; when one of them is missing or empty the route answers
    [Invalid QR code format]. *)
Theorem url_form_resolution (st : Store) (s : jstr) (ps : list (jstr * jstr)) :
  starts_with (js "http") s = true ->
  url_search_params s = Some ps ->
  (forall r e u,
     nonempty (params_get ps (js "registrationId")) = Some r ->
     nonempty (params_get ps (js "eventId")) = Some e ->
     nonempty (params_get ps (js "userId")) = Some u ->
     parse_qr_data s = Some (JObj [(js "registrationId", JStr r); (js "eventId", JStr e);
                                   (js "userId", JStr u)])) /\
  (nonempty (params_get ps (js "registrationId")) = None \/
   nonempty (params_get ps (js "eventId")) = None \/
   nonempty (params_get ps (js "userId")) = None ->
   parse_qr_data s = None /\ scan_resolve st s = inl (InvalidQrFormat (received_preview s))).
Proof.
  intros Hh Hu.
  assert (Hp : parse_qr_data s =
            match nonempty (params_get ps (js "registrationId")),
                  nonempty (params_get ps (js "eventId")),
                  nonempty (params_get ps (js "userId")) with
            | Some r, Some e, Some u =>
                Some (JObj [(js "registrationId", JStr r); (js "eventId", JStr e);
                            (js "userId", JStr u)])
            | _, _, _ => None
            end).
  { unfold parse_qr_data. rewrite json_parse_http, Hh, Hu by exact Hh. reflexivity. }
  split.
  - intros r e u Hr He Hus. rewrite Hp, Hr, He, Hus. reflexivity.
  - intros Hmiss.
    assert (Hn : parse_qr_data s = None).
    { rewrite Hp. destruct Hmiss as [E | [E | E]]; rewrite E;
        [reflexivity | destruct (nonempty (params_get ps (js "registrationId"))); reflexivity
        | destruct (nonempty (params_get ps (js "registrationId")));
          destruct (nonempty (params_get ps (js "eventId"))); reflexivity]. }
    split; [exact Hn|].
    unfold scan_resolve. destruct s as [|c s']; [discriminate|]. rewrite Hn. reflexivity.
Qed.


End Resolve.

(** C7 with the sample runtime: a URL carrying all three parameters. *)
Lemma url_form_resolution_witness :
  (forall r e u,
     nonempty (Some (js "r1")) = Some r -> nonempty (Some (js "e1")) = Some e ->
     nonempty (Some (js "u1")) = Some u ->
     parse_qr_data (js "https://x/t?registrationId=r1&eventId=e1&userId=u1")
     = Some (JObj [(js "registrationId", JStr r); (js "eventId", JStr e);
                   (js "userId", JStr u)])) /\
  (nonempty (Some (js "r1")) = None \/ nonempty (Some (js "e1")) = None \/
   nonempty (Some (js "u1")) = None ->
   parse_qr_data (js "https://x/t?registrationId=r1&eventId=e1&userId=u1") = None /\
   scan_resolve empty_store (js "https://x/t?registrationId=r1&eventId=e1&userId=u1")
   = inl (InvalidQrFormat (received_preview (js "https://x/t?registrationId=r1&eventId=e1&userId=u1")))).
Proof.
  apply (url_form_resolution empty_store _
           [(js "registrationId", js "r1"); (js "eventId", js "e1"); (js "userId", js "u1")]).
  - reflexivity.
  - vm_compute. reflexivity.
Defined.

(** Against C7, with the sample runtime: a URL with only a
    registrationId is answered [Invalid QR code format]. *)
Lemma url_registration_only_rejected :
  parse_qr_data (js "https://x/ticket?registrationId=r1") = None /\
  scan_resolve empty_store (js "https://x/ticket?registrationId=r1")
  = inl (InvalidQrFormat (js "https://x/ticket?registrationId=r1")).
Proof. split; vm_compute; reflexivity. Qed.



(** ** Tampering *)


Section Tamper.
Context `{RT : Runtime}.


End Tamper.





(** ** The scan route and the hash field *)

Section Noninterference.
Context `{RT : Runtime}.

(** Tickets as [generateTicket] stores them: one per registration, and a
    stored QR text that is a JSON object names its ticket's registration. *)
Definition consistent_tickets (st : Store) : Prop :=
  NoDup (map t_registrationId (tickets st)) /\
  forall t q ps, In t (tickets st) -> t_qrCodeData t = Some q ->
    json_parse q = Some (JObj ps) ->
    obj_get ps (js "registrationId") = Some (JStr (t_registrationId t)).

(** The ticket lookup without the exact-text query. *)
Definition find_ticket_by_id (st : Store) (registrationId : json) : option (option Ticket) :=
  match registrationId with
  | JStr r =>
      match find (fun t => jstr_eqb (t_registrationId t) r) (tickets st) with
      | Some t => Some (Some t)
      | None => Some (find (fun t => jstr_eqb (t_ticketNumber t) r) (tickets st))
      end
  | JObj ps =>
      match prisma_string_filter ps with
      | None => None
      | Some p =>
          match find (fun t => p (t_registrationId t)) (tickets st) with
          | Some t => Some (Some t)
          | None => Some (find (fun t => p (t_ticketNumber t)) (tickets st))
          end
      end
  | _ => None
  end.

Lemma find_ticket_consistent (st : Store) (s : jstr) (ps : list (jstr * json)) (rid : json) :
  consistent_tickets st ->
  json_parse s = Some (JObj ps) ->
  obj_get ps (js "registrationId") = Some rid ->
  find_ticket st s rid = find_ticket_by_id st rid.
Proof.
  intros [Hnd Hq] Hp Hr. unfold find_ticket, find_ticket_by_id.
  destruct (find (fun t => opt_jstr_eqb (t_qrCodeData t) (Some s)) (tickets st)) as [t|] eqn:Hf.
  - apply find_some in Hf as [Hin Ht]. apply opt_jstr_eqb_eq in Ht.
    specialize (Hq t s ps Hin Ht Hp). rewrite Hr in Hq. injection Hq as ->.
    rewrite (find_unique t_registrationId _ t _ Hnd Hin eq_refl). reflexivity.
  - reflexivity.
Qed.

Lemma scan_resolve_json (st : Store) (s : jstr) (ps : list (jstr * json)) :
  json_parse s = Some (JObj ps) ->
  scan_resolve st s =
  match obj_get ps (js "registrationId") with
  | Some rid =>
      if negb (truthy (Some rid)) then inl MissingRegistrationId
      else
        match find_ticket st s rid with
        | None => inl InternalServerError
        | Some None => inl (InvalidTicket rid (substring0 s 200) (firstn 5 (tickets st)))
        | Some (Some t) => inr (rid, t)
        end
  | None => inl MissingRegistrationId
  end.
Proof.
  intros Hp. unfold scan_resolve.
  destruct s as [|c s']; [discriminate Hp|].
  unfold parse_qr_data. rewrite Hp. cbv zeta iota beta. cbn [get_prop].
  destruct (obj_get ps (js "registrationId")); reflexivity.
Qed.

End Noninterference.

Section HashIgnored.
Context `{RT : Runtime}.

(** C10 (as the code has it): on a store whose tickets are as issued, two
    scanned texts that are JSON objects with the same registrationId,
    whatever else they carry (a valid, invalid or no hash), get the same
    answer and leave the same store, except that an [Invalid ticket]
    answer echoes the first 200 characters of the text scanned. *)
Theorem scan_ignores_hash (st : Store) (now : Z) (s1 s2 : jstr) (ps1 ps2 : list (jstr * json))
    (sessionId action : option jstr) :
  consistent_tickets st ->
  json_parse s1 = Some (JObj ps1) ->
  json_parse s2 = Some (JObj ps2) ->
  obj_get ps1 (js "registrationId") = obj_get ps2 (js "registrationId") ->
  scan_post st now s1 sessionId action = scan_post st now s2 sessionId action \/
  exists rid,
    scan_post st now s1 sessionId action
      = (InvalidTicket rid (substring0 s1 200) (firstn 5 (tickets st)), st) /\
    scan_post st now s2 sessionId action
      = (InvalidTicket rid (substring0 s2 200) (firstn 5 (tickets st)), st).
Proof.
  intros Hc H1 H2 Hsame.
  unfold scan_post, scan_checks.
  rewrite (scan_resolve_json st s1 ps1 H1), (scan_resolve_json st s2 ps2 H2), Hsame.
  destruct (obj_get ps2 (js "registrationId")) as [rid|] eqn:Hr2; [|left; reflexivity].
  rewrite (find_ticket_consistent st s1 ps1 rid Hc H1 Hsame).
  rewrite (find_ticket_consistent st s2 ps2 rid Hc H2 Hr2).
  destruct (negb (truthy (Some rid))); [left; reflexivity|].
  destruct (find_ticket_by_id st rid) as [[t|]|].
  - left. reflexivity.
  - right. exists rid. split; reflexivity.
  - left. reflexivity.
Qed.

End HashIgnored.

(** C10 on the sample store: the issued payload and the bare object
    [{ registrationId: 'r1' }] check in the same way. *)
Lemma scan_ignores_hash_witness :
  scan_post sample_store 5000 sample_qr None None
  = scan_post sample_store 5000 (jsq "{'registrationId':'r1'}") None None \/
  exists rid,
    scan_post sample_store 5000 sample_qr None None
      = (InvalidTicket rid (substring0 sample_qr 200) (firstn 5 (tickets sample_store)),
         sample_store) /\
    scan_post sample_store 5000 (jsq "{'registrationId':'r1'}") None None
      = (InvalidTicket rid (substring0 (jsq "{'registrationId':'r1'}") 200)
           (firstn 5 (tickets sample_store)), sample_store).
Proof.
  apply (scan_ignores_hash sample_store 5000 sample_qr (jsq "{'registrationId':'r1'}")
           (ticket_data (js "r1") (js "e1") (js "u1") (iso_string 500)
            ++ [(js "hash", JStr (hmac_sha256_hex (secret_of None)
                   (stringify (JObj (ticket_data (js "r1") (js "e1") (js "u1")
                                                 (iso_string 500))))))])
           [(js "registrationId", JStr (js "r1"))]).
  - split.
    + vm_compute. constructor; [intros [] | constructor].
    + intros t q ps Hin Hq Hp. destruct Hin as [<- | []].
      vm_compute in Hq. injection Hq as <-.
      vm_compute in Hp. injection Hp as <-. vm_compute. reflexivity.
  - apply json_parse_signed.
  - vm_compute. reflexivity.
  - vm_compute. reflexivity.
Defined.

(** A store outside [consistent_tickets]: a second ticket, for the pending
    registration r2, whose stored text names r1 and carries a hash. *)
Definition hash_clash_store : Store :=
  {| events := [sample_event];
     registrations := [sample_registration;
                       {| reg_id := js "r2"; reg_status := RegistrationStatus.PENDING;
                          reg_eventId := js "e1"; reg_userId := js "u2" |}];
     tickets := [{| t_id := js "t2"; t_registrationId := js "r2"; t_ticketNumber := js "TK-2";
                    t_qrCodeData := Some (jsq "{'registrationId':'r1','hash':'00'}") |};
                 sample_ticket];
     attendances := []; sessions := [] |}.

(** Against C10: with no ticket in the store, the answers to the object
    [{ registrationId: 'r1' }] with and without a hash member differ in the
    text they echo; and on [hash_clash_store] the text with the hash member
    is found by its exact stored text and refused as not confirmed, while
    the bare object is found through r1 and checks in. *)
Lemma scan_hash_field_matters :
  (scan_post empty_store 5000 (jsq "{'registrationId':'r1'}") None None
   = (InvalidTicket (JStr (js "r1")) (jsq "{'registrationId':'r1'}") [], empty_store) /\
   scan_post empty_store 5000 (jsq "{'registrationId':'r1','hash':'00'}") None None
   = (InvalidTicket (JStr (js "r1")) (jsq "{'registrationId':'r1','hash':'00'}") [], empty_store) /\
   jsq "{'registrationId':'r1'}" <> jsq "{'registrationId':'r1','hash':'00'}") /\
  ((exists a st', scan_post hash_clash_store 5000 (jsq "{'registrationId':'r1'}") None None
                  = (CheckInSuccessful a, st')) /\
   scan_post hash_clash_store 5000 (jsq "{'registrationId':'r1','hash':'00'}") None None
   = (RegistrationNotConfirmed, hash_clash_store)).
Proof.
  split.
  - split; [vm_compute; reflexivity|]. split; [vm_compute; reflexivity|].
    vm_compute. intros E. discriminate E.
  - split; [vm_compute; do 2 eexists; reflexivity | vm_compute; reflexivity].
Qed.

(** * Ticket issuance and the other routes around the QR code

    The validators and [generateTicketNumber] of src/src/lib/types.ts, and
    their callers in src/src/app/api/registrations/route.ts: the
    registration route [POST] (which issues the ticket through
    [generateTicket]) and the QR verification route [POST]. *)

(** ** Enum validators *)

Definition ParticipantCategory_values : list jstr := [js "INTERNAL"; js "PUBLIC"; js "VIP"].

Definition RegistrationStatus_values : list jstr :=
  [js "PENDING"; js "CONFIRMED"; js "CANCELLED"; js "WAITLIST"].

(** [Object.values(X).includes(v)]: the values are strings, and
    [includes] compares with SameValueZero, so only an equal string is
    accepted. *)
Definition includes_value (vals : list jstr) (v : option json) : bool :=
  match v with
  | Some (JStr s) => existsb (jstr_eqb s) vals
  | _ => false
  end.

Definition isValidParticipantCategory (category : option json) : bool :=
  includes_value ParticipantCategory_values category.

Definition isValidRegistrationStatus (status : option json) : bool :=
  includes_value RegistrationStatus_values status.

Definition reg_status_str (s : RegistrationStatus.t) : jstr :=
  match s with
  | RegistrationStatus.PENDING => js "PENDING"
  | RegistrationStatus.CONFIRMED => js "CONFIRMED"
  | RegistrationStatus.CANCELLED => js "CANCELLED"
  | RegistrationStatus.WAITLIST => js "WAITLIST"
  end.

(** ** generateTicketNumber *)

(** A digit of [Number.prototype.toString(36)]: [0-9] then [a-z]. *)
Definition base36_digit (d : N) : N := if d <? 10 then 48 + d else 87 + d.

Fixpoint base36_digits (fuel : nat) (n : N) (acc : jstr) : jstr :=
  match fuel with
  | O => acc
  | S f => if n <? 36 then base36_digit n :: acc
           else base36_digits f (n / 36) (base36_digit (n mod 36) :: acc)
  end.

(** [n.toString(36)] for an integer [n] of magnitude below [36^64]. *)
Definition to_base36 (n : Z) : jstr :=
  (if (n <? 0)%Z then [45] else []) ++ base36_digits 64 (Z.abs_N n) [].

(** An upper-case hex digit. *)
Definition hex_upper (d : N) : N := if d <? 10 then 48 + d else 55 + d.

(** [buffer.toString('hex').toUpperCase()] *)
Definition hex_upper_bytes (bytes : list N) : jstr :=
  flat_map (fun b => [hex_upper (b / 16); hex_upper (b mod 16)]) bytes.

(** [`TK-${Date.now().toString(36)}-${random}`], with [Date.now()] equal
    to [now] and [random] the hex of the four bytes [crypto.randomBytes(4)]
    drew. *)
Definition generateTicketNumber (now : Z) (randomBytes : list N) : jstr :=
  js "TK-" ++ to_base36 now ++ [45] ++ hex_upper_bytes randomBytes.

Example sample_ticket_number :
  generateTicketNumber 1700000000000 [222; 173; 190; 239] = js "TK-loyw3v28-DEADBEEF".
Proof. vm_compute. reflexivity. Qed.

(** ** The registration route [POST] (src/src/app/api/registrations/route.ts)

    The session check is not modelled: [userId] is [session.user.id].  The
    body's [eventId] and [category] are given as JSON values ([None] when
    absent); [customFields] is stored as is and not modelled.  The store
    has no [maxCapacity] column: it is read through [maxCapacity].  The
    ids Prisma gives the new registration and ticket, and the random bytes
    of the ticket number, are inputs; [ticket_ok] says whether the [try]
    block that generates and stores the ticket completes (the QR image
    rendering or the insert may throw). *)

Definition with_registrations (st : Store) (regs : list Registration) : Store :=
  {| events := events st; registrations := regs;
     tickets := tickets st; attendances := attendances st; sessions := sessions st |}.

Definition with_tickets (st : Store) (ts : list Ticket) : Store :=
  {| events := events st; registrations := registrations st;
     tickets := ts; attendances := attendances st; sessions := sessions st |}.

Inductive reg_response :=
| EventIdRequired
| EventNotFound
| EventNotOpenForRegistration
| EventFull
| AlreadyRegistered
(** status 201: the registration, its category, and its ticket unless
    ticket generation failed *)
| Registered (registration : Registration) (category : jstr) (ticket : option Ticket)
| RegistrationFailed.

(** [event._count.registrations] *)
Definition registration_count (st : Store) (eventId : jstr) : Z :=
  Z.of_nat (List.length (filter (fun g => jstr_eqb (reg_eventId g) eventId) (registrations st))).

(** [const { category = 'PUBLIC' } = body] then
    [isValidParticipantCategory(category) ? category : 'PUBLIC'] *)
Definition valid_category (category : option json) : jstr :=
  let category := match category with None => Some (JStr (js "PUBLIC")) | c => c end in
  match category with
  | Some (JStr s) => if isValidParticipantCategory category then s else js "PUBLIC"
  | _ => js "PUBLIC"
  end.

Section RegistrationRoute.
Context `{RT : Runtime}.

(** [generateTicket(registrationId, eventId, userId)] and the
    [ticket.create] of its result, at time [now]. *)
Definition ticket_of (now : Z) (env : option jstr) (ticketId registrationId eventId userId : jstr)
    (randomBytes : list N) : Ticket :=
  {| t_id := ticketId; t_registrationId := registrationId;
     t_ticketNumber := generateTicketNumber now randomBytes;
     t_qrCodeData := Some (generateQRCodeData env now registrationId eventId userId) |}.

Definition registration_post (maxCapacity : Event -> option Z)
    (st : Store) (now : Z) (env : option jstr) (userId : jstr)
    (eventId category : option json)
    (newRegistrationId newTicketId : jstr) (randomBytes : list N) (ticket_ok : bool)
  : reg_response * Store :=
  if negb (truthy eventId) then (EventIdRequired, st)
  else
    match eventId with
    | Some (JStr e) =>
        let validCategory := valid_category category in
        match find (fun ev => jstr_eqb (ev_id ev) e) (events st) with
        | None => (EventNotFound, st)
        | Some ev =>
            match ev_status ev with
            | EventStatus.PUBLISHED =>
                let full := match maxCapacity ev with
                            | Some m => negb (m =? 0)%Z && (m <=? registration_count st e)%Z
                            | None => false
                            end in
                if full then (EventFull, st)
                else
                  match find (fun g => jstr_eqb (reg_eventId g) e && jstr_eqb (reg_userId g) userId)
                             (registrations st) with
                  | Some _ => (AlreadyRegistered, st)
                  | None =>
                      let g := {| reg_id := newRegistrationId;
                                  reg_status := RegistrationStatus.CONFIRMED;
                                  reg_eventId := e; reg_userId := userId |} in
                      let st1 := with_registrations st (registrations st ++ [g]) in
                      if ticket_ok then
                        let t := ticket_of now env newTicketId newRegistrationId e userId randomBytes in
                        (Registered g validCategory (Some t), with_tickets st1 (tickets st1 ++ [t]))
                      else (Registered g validCategory None, st1)
                  end
            | _ => (EventNotOpenForRegistration, st)
            end
        end
    (* a non-string [eventId] makes [findUnique] throw *)
    | _ => (RegistrationFailed, st)
    end.

End RegistrationRoute.

Definition sample_registration_store : Store :=
  {| events := [sample_event]; registrations := []; tickets := []; attendances := [];
     sessions := [] |}.

Definition sample_registration_run :=
  registration_post (fun _ => Some 100%Z) sample_registration_store
    500 None (js "u1") (Some (JStr (js "e1"))) None (js "r1") (js "t1") [1; 2; 3; 4] true.

Example sample_registration_scan :
  fst (scan_post (snd sample_registration_run) 2000
         (generateQRCodeData None 500 (js "r1") (js "e1") (js "u1")) None None)
  = CheckInSuccessful {| att_id := 1; att_registrationId := js "r1"; att_sessionId := None;
                         att_checkInTime := Some 2000%Z; att_checkOutTime := None;
                         att_method := CheckInMethod.QR_CODE |}.
Proof. vm_compute. reflexivity. Qed.

(** ** Registration: proofs *)

Lemma includes_value_in (vals : list jstr) (s : jstr) :
  includes_value vals (Some (JStr s)) = true -> In s vals.
Proof.
  cbn [includes_value]. intros H. apply existsb_exists in H as [v [Hin Hv]].
  apply jstr_eqb_eq in Hv. subst v. exact Hin.
Qed.

Lemma valid_category_valid (category : option json) :
  In (valid_category category) ParticipantCategory_values.
Proof.
  unfold valid_category.
  destruct category as [[| | | s | |]|];
    try (cbn; right; left; reflexivity).
  destruct (isValidParticipantCategory (Some (JStr s))) eqn:H.
  - apply includes_value_in, H.
  - cbn. right. left. reflexivity.
Qed.

Section RegistrationProofs.
Context `{RT : Runtime}.

(** The new registration row of [registration_post]. *)
Definition new_registration (newRegistrationId eventId userId : jstr) : Registration :=
  {| reg_id := newRegistrationId; reg_status := RegistrationStatus.CONFIRMED;
     reg_eventId := eventId; reg_userId := userId |}.

Lemma registration_post_cases (maxCapacity : Event -> option Z) (st : Store) (now : Z)
    (env : option jstr) (userId : jstr) (eventId category : option json)
    (nr nt : jstr) (rb : list N) (ok : bool) (resp : reg_response) (st' : Store) :
  registration_post maxCapacity st now env userId eventId category nr nt rb ok = (resp, st') ->
  (st' = st /\ forall g c t, resp <> Registered g c t) \/
  (exists e ev,
     eventId = Some (JStr e) /\ find (fun ev => jstr_eqb (ev_id ev) e) (events st) = Some ev /\
     ev_status ev = EventStatus.PUBLISHED /\
     match maxCapacity ev with
     | Some m => negb (m =? 0)%Z && (m <=? registration_count st e)%Z
     | None => false
     end = false /\
     find (fun g => jstr_eqb (reg_eventId g) e && jstr_eqb (reg_userId g) userId)
          (registrations st) = None /\
     let g := new_registration nr e userId in
     let st1 := with_registrations st (registrations st ++ [g]) in
     ((ok = true /\
       resp = Registered g (valid_category category) (Some (ticket_of now env nt nr e userId rb)) /\
       st' = with_tickets st1 (tickets st ++ [ticket_of now env nt nr e userId rb])) \/
      (ok = false /\ resp = Registered g (valid_category category) None /\ st' = st1))).
Proof.
  unfold registration_post.
  destruct (negb (truthy eventId)) eqn:Ht.
  { intros H. injection H as <- <-. left. split; [reflexivity | intros g c t; discriminate]. }
  destruct eventId as [[| | | e | |]|];
    try (intros H; injection H as <- <-; left; split; [reflexivity | intros g c t; discriminate]).
  destruct (find (fun ev => jstr_eqb (ev_id ev) e) (events st)) as [ev|] eqn:Hev;
    [|intros H; injection H as <- <-; left; split; [reflexivity | intros g c t; discriminate]].
  destruct (ev_status ev) eqn:Hs;
    try (intros H; injection H as <- <-; left; split; [reflexivity | intros g c t; discriminate]).
  destruct (match maxCapacity ev with
            | Some m => negb (m =? 0)%Z && (m <=? registration_count st e)%Z
            | None => false
            end) eqn:Hfull;
    [intros H; injection H as <- <-; left; split; [reflexivity | intros g c t; discriminate]|].
  destruct (find (fun g => jstr_eqb (reg_eventId g) e && jstr_eqb (reg_userId g) userId)
                 (registrations st)) as [x|] eqn:Hex;
    [intros H; injection H as <- <-; left; split; [reflexivity | intros g c t; discriminate]|].
  intros H. right. exists e, ev. repeat split; try assumption; try reflexivity.
  destruct ok; injection H as <- <-; [left | right]; repeat split; reflexivity.
Qed.

End RegistrationProofs.

Lemma NoDup_snoc {A} (l : list A) (x : A) : NoDup l -> ~ In x l -> NoDup (l ++ [x]).
Proof.
  induction l as [|y l IH]; intros Hnd Hx; cbn [app]; [constructor; [intros [] | constructor]|].
  apply NoDup_cons_iff in Hnd as [Hy Hnd]. constructor.
  - intros Hin. apply in_app_or in Hin as [Hin | [<- | []]]; [exact (Hy Hin) | apply Hx; left; reflexivity].
  - apply IH; [exact Hnd | intros Hin; apply Hx; right; exact Hin].
Qed.

(** At most one registration per (event, user), as the compound unique
    key [eventId_userId] of the schema requires. *)
Definition one_registration_per_user (st : Store) : Prop :=
  NoDup (map (fun g => (reg_eventId g, reg_userId g)) (registrations st)).

Section RegistrationTheorems.
Context `{RT : Runtime}.

(** A refused registration leaves the store as it is.  A successful one
    was for an existing PUBLISHED event, below its capacity when it has a
    non-zero one, that the user had not registered for; it appends one
    CONFIRMED registration of that user for that event with a valid
    participant category, appends its ticket unless ticket generation
    failed, and changes nothing else. *)
Theorem registration_post_effect (maxCapacity : Event -> option Z) (st : Store) (now : Z)
    (env : option jstr) (userId : jstr) (eventId category : option json)
    (nr nt : jstr) (rb : list N) (ok : bool) (resp : reg_response) (st' : Store) :
  registration_post maxCapacity st now env userId eventId category nr nt rb ok = (resp, st') ->
  ((forall g c t, resp <> Registered g c t) -> st' = st) /\
  (forall g c t, resp = Registered g c t ->
     exists e ev, eventId = Some (JStr e) /\ In ev (events st) /\ ev_id ev = e /\
       ev_status ev = EventStatus.PUBLISHED /\
       (forall m, maxCapacity ev = Some m -> m <> 0%Z -> (registration_count st e < m)%Z) /\
       (forall g', In g' (registrations st) -> ~ (reg_eventId g' = e /\ reg_userId g' = userId)) /\
       g = new_registration nr e userId /\ In c ParticipantCategory_values /\
       registrations st' = registrations st ++ [g] /\
       tickets st' = tickets st ++ match t with Some t' => [t'] | None => [] end /\
       events st' = events st /\ attendances st' = attendances st).
Proof.
  intros H. destruct (registration_post_cases _ _ _ _ _ _ _ _ _ _ _ _ _ H)
    as [[-> Hno] | [e [ev [He [Hev [Hs [Hfull [Hex Hres]]]]]]]].
  - split; [reflexivity|]. intros g c t E. exfalso. exact (Hno g c t E).
  - assert (Hcases : exists t0, resp = Registered (new_registration nr e userId)
                                  (valid_category category) t0 /\
               registrations st' = registrations st ++ [new_registration nr e userId] /\
               tickets st' = tickets st ++ match t0 with Some t' => [t'] | None => [] end /\
               events st' = events st /\ attendances st' = attendances st).
    { destruct Hres as [[_ [-> ->]] | [_ [-> ->]]];
        [exists (Some (ticket_of now env nt nr e userId rb)) | exists None];
        repeat split; cbn; rewrite ?app_nil_r; reflexivity. }
    destruct Hcases as [t0 [Hr [Hregs [Htk [Hevs Hatt]]]]].
    split.
    + intros Hno. exfalso. exact (Hno _ _ _ Hr).
    + intros g c t E. rewrite Hr in E. injection E as <- <- <-.
      apply find_some in Hev as [Hin Hid]. apply jstr_eqb_eq in Hid.
      exists e, ev. repeat split; try assumption.
      * intros m Hm Hm0. rewrite Hm in Hfull.
        apply andb_false_iff in Hfull as [Hf | Hf].
        -- apply negb_false_iff, Z.eqb_eq in Hf. contradiction.
        -- apply Z.leb_gt in Hf. exact Hf.
      * intros g' Hg' [Hge Hgu]. assert (Hp := find_none _ _ Hex g' Hg'). cbv beta in Hp.
        rewrite Hge, Hgu, !jstr_eqb_refl in Hp. discriminate Hp.
      * apply valid_category_valid.
Qed.

(** Registration never creates a second registration of a user for the
    same event. *)
Theorem registration_post_one_per_user (maxCapacity : Event -> option Z) (st : Store) (now : Z)
    (env : option jstr) (userId : jstr) (eventId category : option json)
    (nr nt : jstr) (rb : list N) (ok : bool) (resp : reg_response) (st' : Store) :
  one_registration_per_user st ->
  registration_post maxCapacity st now env userId eventId category nr nt rb ok = (resp, st') ->
  one_registration_per_user st'.
Proof.
  intros Hu H. destruct (registration_post_cases _ _ _ _ _ _ _ _ _ _ _ _ _ H)
    as [[-> _] | [e [ev [_ [_ [_ [_ [Hex Hres]]]]]]]]; [exact Hu|].
  assert (Hregs : registrations st' = registrations st ++ [new_registration nr e userId]).
  { destruct Hres as [[_ [_ ->]] | [_ [_ ->]]]; reflexivity. }
  unfold one_registration_per_user. rewrite Hregs, map_app. cbn [map].
  apply NoDup_snoc; [exact Hu|].
  intros Hin. apply in_map_iff in Hin as [g' [Hp Hg']].
  assert (Hf := find_none _ _ Hex g' Hg'). cbv beta in Hf.
  cbn in Hp. injection Hp as Hge Hgu. rewrite Hge, Hgu, !jstr_eqb_refl in Hf. discriminate Hf.
Qed.

Lemma json_parse_payload (env : option jstr) (now : Z) (r e u : jstr) :
  exists ps, json_parse (generateQRCodeData env now r e u) = Some (JObj ps) /\
             obj_get ps (js "registrationId") = Some (JStr r).
Proof.
  eexists. split; [unfold generateQRCodeData; cbv zeta; apply json_parse_signed | reflexivity].
Qed.

Lemma consistent_tickets_after_registration (maxCapacity : Event -> option Z) (st : Store)
    (now : Z) (env : option jstr) (userId : jstr) (eventId category : option json)
    (nr nt : jstr) (rb : list N) (ok : bool) (resp : reg_response) (st' : Store) :
  consistent_tickets st ->
  ~ In nr (map t_registrationId (tickets st)) ->
  registration_post maxCapacity st now env userId eventId category nr nt rb ok = (resp, st') ->
  consistent_tickets st'.
Proof.
  intros [Hnd Hq] Hfresh H. destruct (registration_post_cases _ _ _ _ _ _ _ _ _ _ _ _ _ H)
    as [[-> _] | [e [ev [_ [_ [_ [_ [_ Hres]]]]]]]]; [split; assumption|].
  destruct Hres as [[_ [_ ->]] | [_ [_ ->]]]; [|split; assumption].
  split.
  - cbn [tickets with_tickets]. rewrite map_app. apply NoDup_snoc; [exact Hnd|]. exact Hfresh.
  - cbn [tickets with_tickets]. intros t q ps Hin Ht Hp.
    apply in_app_or in Hin as [Hin | [<- | []]]; [exact (Hq t q ps Hin Ht Hp)|].
    unfold ticket_of in Ht. cbn [t_qrCodeData] in Ht. injection Ht as <-.
    destruct (json_parse_payload env now nr e userId) as [ps' [Hp' Hr']].
    rewrite Hp in Hp'. injection Hp' as <-. exact Hr'.
Qed.

(** Registration keeps the tickets as [consistent_tickets] describes
    them (one per registration, each QR text naming its registration),
    provided the id Prisma gives the new registration has no ticket yet. *)
Theorem registration_post_consistent_tickets (maxCapacity : Event -> option Z) (st : Store)
    (now : Z) (env : option jstr) (userId : jstr) (eventId category : option json)
    (nr nt : jstr) (rb : list N) (ok : bool) (resp : reg_response) (st' : Store) :
  consistent_tickets st ->
  ~ In nr (map t_registrationId (tickets st)) ->
  registration_post maxCapacity st now env userId eventId category nr nt rb ok = (resp, st') ->
  consistent_tickets st'.
Proof. apply consistent_tickets_after_registration. Qed.

End RegistrationTheorems.

Lemma find_none_intro {A} (p : A -> bool) (l : list A) :
  (forall y, In y l -> p y = false) -> find p l = None.
Proof.
  induction l as [|y l IH]; intros H; [reflexivity|]. cbn [find].
  rewrite (H y (or_introl eq_refl)). apply IH. intros z Hz. apply H. right. exact Hz.
Qed.

Lemma find_snoc {A} (p : A -> bool) (l : list A) (x : A) :
  (forall y, In y l -> p y = false) -> p x = true -> find p (l ++ [x]) = Some x.
Proof.
  induction l as [|y l IH]; intros H Hx; cbn [app find]; [rewrite Hx; reflexivity|].
  rewrite (H y (or_introl eq_refl)). apply IH; [|exact Hx]. intros z Hz. apply H. right. exact Hz.
Qed.

Section RegistrationScan.
Context `{RT : Runtime}.

(** End to end: right after a registration that issued its ticket, a
    QR scan of the ticket's stored text during the event checks the user
    in, with the new registration's id, when the partition has no row yet
    and the session, if one is given, exists (the tickets being consistent
    and the new id fresh). *)
Theorem registration_then_scan (maxCapacity : Event -> option Z) (st : Store) (now now' : Z)
    (env : option jstr) (userId : jstr) (eventId category : option json)
    (nr nt : jstr) (rb : list N) (g : Registration) (c : jstr) (t : Ticket) (st' : Store)
    (q : jstr) (sessionId : option jstr) :
  consistent_tickets st ->
  ~ In nr (map t_registrationId (tickets st)) ->
  ~ In nr (map reg_id (registrations st)) ->
  nr <> [] ->
  registration_post maxCapacity st now env userId eventId category nr nt rb true
    = (Registered g c (Some t), st') ->
  t_qrCodeData t = Some q ->
  (forall ev, In ev (events st) -> ev_id ev = reg_eventId g ->
              (ev_startDate ev <= now' <= ev_endDate ev)%Z) ->
  (forall a, In a (attendances st) ->
             ~ (att_registrationId a = nr /\ att_sessionId a = nonempty sessionId)) ->
  session_named st (nonempty sessionId) ->
  exists a, scan_post st' now' q sessionId None
            = (CheckInSuccessful a, with_attendances st' (attendances st' ++ [a])) /\
          att_registrationId a = nr /\ att_checkInTime a = Some now' /\
          att_method a = CheckInMethod.QR_CODE.
Proof.
  intros Hc Hft Hfr Hne H Hq Hwin Hatt Hsess.
  assert (Hc' := consistent_tickets_after_registration _ _ _ _ _ _ _ _ _ _ _ _ _ Hc Hft H).
  destruct (registration_post_cases _ _ _ _ _ _ _ _ _ _ _ _ _ H)
    as [[_ Hno] | [e [ev [He [Hev [Hs [_ [_ Hres]]]]]]]];
    [exfalso; exact (Hno g c (Some t) eq_refl)|].
  destruct Hres as [[_ [Hr ->]] | [Hok _]]; [|discriminate Hok].
  injection Hr as -> _ ->.
  unfold ticket_of in Hq at 1. cbn [t_qrCodeData] in Hq. injection Hq as <-.
  destruct (json_parse_payload env now nr e userId) as [ps [Hp Hrid]].
  set (t := ticket_of now env nt nr e userId rb) in *.
  set (g := new_registration nr e userId) in *.
  set (st' := with_tickets (with_registrations st (registrations st ++ [g])) (tickets st ++ [t])) in *.
  assert (Hres : scan_resolve st' (generateQRCodeData env now nr e userId) = inr (JStr nr, t)).
  { rewrite (scan_resolve_json st' _ ps Hp), Hrid, (truthy_str nr Hne). cbn [negb].
    rewrite (find_ticket_consistent st' _ ps (JStr nr) Hc' Hp Hrid).
    unfold find_ticket_by_id.
    rewrite (find_unique t_registrationId (tickets st') t nr (proj1 Hc')).
    - reflexivity.
    - apply in_or_app. right. left. reflexivity.
    - reflexivity. }
  assert (Hevf := Hev).
  apply find_some in Hev as [Hevin Hevid]. apply jstr_eqb_eq in Hevid.
  assert (Htr : ticket_registration st' t = Some (g, ev)).
  { unfold ticket_registration.
    change (registrations st') with (registrations st ++ [g]).
    change (events st') with (events st).
    rewrite find_snoc; [change (reg_eventId g) with e; rewrite Hevf; reflexivity| |apply jstr_eqb_refl].
    intros y Hy. cbv beta. change (t_registrationId t) with nr.
    destruct (jstr_eqb (reg_id y) nr) eqn:E; [|reflexivity].
    apply jstr_eqb_eq in E. exfalso. apply Hfr. rewrite <- E. apply in_map, Hy. }
  destruct (Hwin ev Hevin Hevid) as [Hlo Hhi].
  unfold scan_post, scan_checks. rewrite Hres. unfold scan_preconditions. rewrite Htr.
  cbn [g new_registration reg_status is_confirmed negb]. rewrite Hs. cbn [scannable negb].
  rewrite (proj2 (Z.ltb_ge _ _) Hlo), (proj2 (Z.ltb_ge _ _) Hhi).
  rewrite (jstr_eqb_refl (js "checkin")).
  destruct (check_in_meets_outcome st' now' nr (nonempty sessionId) CheckInMethod.QR_CODE)
    as [_ [_ Hnew]].
  destruct Hnew as [a [Ha [Har [_ [Hat [_ [Ham _]]]]]]].
  - intros [a [Hin [Har Has]]]. exact (Hatt a Hin (conj Har Has)).
  - exists g. split; [|reflexivity]. apply in_or_app. right. left. reflexivity.
  - exact Hsess.
  - exists a. split; [exact Ha|]. auto.
Qed.


End RegistrationScan.

Lemma sample_registration_store_consistent : consistent_tickets sample_registration_store.
Proof. split; [constructor | intros t q ps []]. Qed.

Lemma registration_post_effect_witness :
  registration_post (fun _ => Some 100%Z) sample_registration_store 500 None (js "u1")
    (Some (JStr (js "e1"))) None (js "r1") (js "t1") [1; 2; 3; 4] true
  = (fst sample_registration_run, snd sample_registration_run) /\
  ((forall g c t, fst sample_registration_run <> Registered g c t) ->
     snd sample_registration_run = sample_registration_store) /\
  (forall g c t, fst sample_registration_run = Registered g c t ->
     exists e ev, Some (JStr (js "e1")) = Some (JStr e) /\ In ev (events sample_registration_store) /\
       ev_id ev = e /\ ev_status ev = EventStatus.PUBLISHED /\
       (forall m, (fun _ : Event => Some 100%Z) ev = Some m -> m <> 0%Z ->
                  (registration_count sample_registration_store e < m)%Z) /\
       (forall g', In g' (registrations sample_registration_store) ->
                   ~ (reg_eventId g' = e /\ reg_userId g' = js "u1")) /\
       g = new_registration (js "r1") e (js "u1") /\ In c ParticipantCategory_values /\
       registrations (snd sample_registration_run) = registrations sample_registration_store ++ [g] /\
       tickets (snd sample_registration_run)
         = tickets sample_registration_store ++ match t with Some t' => [t'] | None => [] end /\
       events (snd sample_registration_run) = events sample_registration_store /\
       attendances (snd sample_registration_run) = attendances sample_registration_store).
Proof.
  split; [reflexivity|].
  exact (registration_post_effect (fun _ => Some 100%Z) sample_registration_store 500 None (js "u1")
           (Some (JStr (js "e1"))) None (js "r1") (js "t1") [1; 2; 3; 4] true
           (fst sample_registration_run) (snd sample_registration_run) eq_refl).
Defined.

Lemma registration_post_one_per_user_witness :
  one_registration_per_user sample_registration_store /\
  registration_post (fun _ => Some 100%Z) sample_registration_store 500 None (js "u1")
    (Some (JStr (js "e1"))) None (js "r1") (js "t1") [1; 2; 3; 4] true
  = (fst sample_registration_run, snd sample_registration_run) /\
  one_registration_per_user (snd sample_registration_run).
Proof.
  assert (H0 : one_registration_per_user sample_registration_store) by constructor.
  split; [exact H0|]. split; [reflexivity|].
  exact (registration_post_one_per_user (fun _ => Some 100%Z) sample_registration_store 500 None
           (js "u1") (Some (JStr (js "e1"))) None (js "r1") (js "t1") [1; 2; 3; 4] true
           (fst sample_registration_run) (snd sample_registration_run) H0 eq_refl).
Defined.

Lemma registration_post_consistent_tickets_witness :
  consistent_tickets sample_registration_store /\
  ~ In (js "r1") (map t_registrationId (tickets sample_registration_store)) /\
  registration_post (fun _ => Some 100%Z) sample_registration_store 500 None (js "u1")
    (Some (JStr (js "e1"))) None (js "r1") (js "t1") [1; 2; 3; 4] true
  = (fst sample_registration_run, snd sample_registration_run) /\
  consistent_tickets (snd sample_registration_run).
Proof.
  assert (H1 : ~ In (js "r1") (map t_registrationId (tickets sample_registration_store)))
    by (intros []).
  split; [exact sample_registration_store_consistent|]. split; [exact H1|].
  split; [reflexivity|].
  exact (registration_post_consistent_tickets (fun _ => Some 100%Z) sample_registration_store 500
           None (js "u1") (Some (JStr (js "e1"))) None (js "r1") (js "t1") [1; 2; 3; 4] true
           (fst sample_registration_run) (snd sample_registration_run)
           sample_registration_store_consistent H1 eq_refl).
Defined.

Lemma registration_then_scan_witness :
  registration_post (fun _ => Some 100%Z) sample_registration_store 500 None (js "u1")
    (Some (JStr (js "e1"))) None (js "r1") (js "t1") [1; 2; 3; 4] true
  = (Registered (new_registration (js "r1") (js "e1") (js "u1")) (js "PUBLIC")
       (Some (ticket_of 500 None (js "t1") (js "r1") (js "e1") (js "u1") [1; 2; 3; 4])),
     snd sample_registration_run) /\
  exists a, scan_post (snd sample_registration_run) 2000
              (generateQRCodeData None 500 (js "r1") (js "e1") (js "u1")) None None
            = (CheckInSuccessful a, with_attendances (snd sample_registration_run)
                                      (attendances (snd sample_registration_run) ++ [a])) /\
          att_registrationId a = js "r1" /\ att_checkInTime a = Some 2000%Z /\
          att_method a = CheckInMethod.QR_CODE.
Proof.
  assert (Hr : registration_post (fun _ => Some 100%Z) sample_registration_store 500 None (js "u1")
    (Some (JStr (js "e1"))) None (js "r1") (js "t1") [1; 2; 3; 4] true
  = (Registered (new_registration (js "r1") (js "e1") (js "u1")) (js "PUBLIC")
       (Some (ticket_of 500 None (js "t1") (js "r1") (js "e1") (js "u1") [1; 2; 3; 4])),
     snd sample_registration_run)) by reflexivity.
  split; [exact Hr|].
  apply (registration_then_scan (fun _ => Some 100%Z) sample_registration_store 500 2000 None
           (js "u1") (Some (JStr (js "e1"))) None (js "r1") (js "t1") [1; 2; 3; 4]
           (new_registration (js "r1") (js "e1") (js "u1")) (js "PUBLIC")
           (ticket_of 500 None (js "t1") (js "r1") (js "e1") (js "u1") [1; 2; 3; 4])
           (snd sample_registration_run)
           (generateQRCodeData None 500 (js "r1") (js "e1") (js "u1")) None).
  - exact sample_registration_store_consistent.
  - intros [].
  - intros [].
  - discriminate.
  - exact Hr.
  - reflexivity.
  - intros ev [<-|[]] _. cbn. lia.
  - intros a [].
  - exact I.
Defined.

(** ** The QR verification route ([POST /api/qr/verify],
    src/src/app/api/registrations/route.ts, second file)

    The session is [Some (id, role)] for a signed-in user and [None]
    otherwise; the role is the session's string.  [qrCodeData] is the
    body's property when it is a string ([None] when absent).  Both
    [new Date()] of the request, the one inside [verifyQRCodeData] and the
    one of the event window, are taken to be the request time [now], as in
    the scan route.  [createdById] is the event's [createdById] column. *)

Inductive qv_response :=
| QVUnauthorized                                           (* 401 *)
| QVForbiddenRole                                          (* 403 *)
| QVDataRequired                                           (* 400 *)
| QVInvalid (error : verify_error)                         (* 400 *)
| QVTicketNotFound                                         (* 404 *)
| QVMismatch                                               (* 400 *)
| QVForbiddenEvent                                         (* 403 *)
| QVNotStarted (eventStart : Z)                            (* 400 *)
| QVEnded (eventEnd : Z)                                   (* 400 *)
| QVValid (ticket : Ticket) (registration : Registration) (event : Event)
| QVInternalError.                                         (* 500 *)

Section QrVerify.
Context `{RT : Runtime}.
Variable createdById : Event -> jstr.

(** [where: { registrationId }] for the property's value: a string is
    matched exactly, an object is read as a [StringFilter], [undefined]
    sets no condition; [None] when Prisma's validation refuses the value. *)
Definition registration_where (v : option json) : option (jstr -> bool) :=
  match v with
  | Some (JStr r) => Some (fun x => jstr_eqb x r)
  | Some (JObj ps) => prisma_string_filter ps
  | Some _ => None
  | None => Some (fun _ => true)
  end.

Definition qr_verify_post (st : Store) (now : Z) (env : option jstr)
    (session : option (jstr * jstr)) (qrCodeData : option jstr) : qv_response :=
  match session with
  | None => QVUnauthorized
  | Some (uid, role) =>
      match uid with
      | [] => QVUnauthorized
      | _ =>
      if negb (jstr_eqb role (js "ADMIN")) && negb (jstr_eqb role (js "EVENT_ORGANIZER"))
      then QVForbiddenRole
      else
        match qrCodeData with
        | None | Some [] => QVDataRequired
        | Some s =>
            match verifyQRCodeData env now s with
            | VInvalid err => QVInvalid err
            | VValid qrData =>
                match registration_where (get_prop qrData (js "registrationId")) with
                | None => QVInternalError
                | Some p =>
                    match find (fun t => p (t_registrationId t)) (tickets st) with
                    | None => QVTicketNotFound
                    | Some t =>
                        match ticket_registration st t with
                        | None => QVInternalError
                        | Some (g, ev) =>
                            if negb (strict_eq_str (get_prop qrData (js "eventId")) (reg_eventId g))
                               || negb (strict_eq_str (get_prop qrData (js "userId")) (reg_userId g))
                            then QVMismatch
                            else if jstr_eqb role (js "EVENT_ORGANIZER")
                                    && negb (jstr_eqb (createdById ev) uid)
                            then QVForbiddenEvent
                            else if (now <? ev_startDate ev)%Z then QVNotStarted (ev_startDate ev)
                            else if (ev_endDate ev <? now)%Z then QVEnded (ev_endDate ev)
                            else QVValid t g ev
                        end
                    end
                end
            end
        end
      end
  end.

End QrVerify.

(** ** Ticket numbers: proofs *)

Lemma is_id_char_ranges (c : N) :
  (48 <= c <= 57 \/ 65 <= c <= 90 \/ 97 <= c <= 122 \/ c = 45) -> is_id_char c = true.
Proof.
  unfold is_id_char, is_digit. intros [[H1 H2]|[[H1 H2]|[[H1 H2]|H]]].
  - apply N.leb_le in H1, H2. rewrite H1, H2. cbn [andb]. rewrite ?orb_true_r. reflexivity.
  - apply N.leb_le in H1, H2. rewrite H1, H2. reflexivity.
  - apply N.leb_le in H1, H2. rewrite H1, H2. cbn [andb]. rewrite ?orb_true_r. reflexivity.
  - subst c. reflexivity.
Qed.

Lemma base36_digit_id (d : N) : d < 36 -> is_id_char (base36_digit d) = true.
Proof.
  intros Hd. apply is_id_char_ranges. unfold base36_digit.
  destruct (d <? 10) eqn:E; [apply N.ltb_lt in E | apply N.ltb_ge in E]; lia.
Qed.

Lemma hex_upper_id (d : N) : d < 16 -> is_id_char (hex_upper d) = true.
Proof.
  intros Hd. apply is_id_char_ranges. unfold hex_upper.
  destruct (d <? 10) eqn:E; [apply N.ltb_lt in E | apply N.ltb_ge in E]; lia.
Qed.

Lemma base36_digits_id (fuel : nat) (n : N) (acc : jstr) :
  forallb is_id_char acc = true -> forallb is_id_char (base36_digits fuel n acc) = true.
Proof.
  revert n acc. induction fuel as [|f IH]; intros n acc Hacc; [exact Hacc|].
  cbn [base36_digits]. destruct (n <? 36) eqn:E.
  - apply N.ltb_lt in E. cbn [forallb]. rewrite base36_digit_id, Hacc; [reflexivity | exact E].
  - apply IH. cbn [forallb]. rewrite base36_digit_id, Hacc; [reflexivity|].
    apply N.mod_lt. discriminate.
Qed.

Lemma ticket_number_chars (now : Z) (rb : list N) :
  Forall (fun b => b < 256) rb -> forallb is_id_char (generateTicketNumber now rb) = true.
Proof.
  intros Hrb. unfold generateTicketNumber. rewrite !forallb_app.
  assert (Hb : forallb is_id_char (to_base36 now) = true).
  { unfold to_base36. rewrite forallb_app, base36_digits_id by reflexivity.
    destruct (now <? 0)%Z; reflexivity. }
  assert (Hh : forallb is_id_char (hex_upper_bytes rb) = true).
  { unfold hex_upper_bytes. induction Hrb as [|b rb Hb256 _ IH]; [reflexivity|].
    cbn [flat_map]. rewrite forallb_app, IH. cbn [forallb].
    rewrite !hex_upper_id; [reflexivity | apply N.mod_lt; discriminate |].
    apply N.Div0.div_lt_upper_bound. exact Hb256. }
  rewrite Hb, Hh. reflexivity.
Qed.

Lemma json_parse_T (r : jstr) : json_parse (84 :: r) = None.
Proof. reflexivity. Qed.

Section TicketNumber.
Context `{RT : Runtime}.

(** A ticket number is made only of the characters [/^[a-zA-Z0-9-_]+$/]
    accepts, and it is not JSON, so the scan route reads it as a bare
    registration id; when no ticket has it as QR text or registration id
    and ticket numbers are distinct, typing it in the scanner resolves to
    its ticket through the ticket-number query. *)
Theorem ticket_number_scan_resolves (st : Store) (t : Ticket) (now : Z) (rb : list N) :
  In t (tickets st) ->
  t_ticketNumber t = generateTicketNumber now rb ->
  Forall (fun b => b < 256) rb ->
  NoDup (map t_ticketNumber (tickets st)) ->
  (forall t', In t' (tickets st) ->
     t_qrCodeData t' <> Some (t_ticketNumber t) /\ t_registrationId t' <> t_ticketNumber t) ->
  scan_resolve st (t_ticketNumber t) = inr (JStr (t_ticketNumber t), t).
Proof.
  intros Hin Htn Hrb Hnd Hother.
  assert (Hchars := ticket_number_chars now rb Hrb).
  rewrite <- Htn in Hchars.
  assert (HT : exists r, t_ticketNumber t = 84 :: r).
  { rewrite Htn. eexists. reflexivity. }
  destruct HT as [r Hr].
  unfold scan_resolve. rewrite Hr. rewrite Hr in Hchars.
  assert (Hp : parse_qr_data (84 :: r) = Some (JObj [(js "registrationId", JStr (84 :: r))])).
  { unfold parse_qr_data. rewrite json_parse_T. cbn [starts_with js String.list_ascii_of_string map].
    cbn [andb N.eqb Pos.eqb]. unfold matches_simple_id. rewrite Hchars. reflexivity. }
  rewrite Hp. cbn [get_prop obj_get]. cbn - [find_ticket].
  unfold find_ticket. rewrite <- Hr.
  rewrite find_none_intro.
  2:{ intros y Hy. destruct (opt_jstr_eqb (t_qrCodeData y) (Some (t_ticketNumber t))) eqn:E;
      [|reflexivity]. apply opt_jstr_eqb_eq in E. exfalso. exact (proj1 (Hother y Hy) E). }
  rewrite find_none_intro.
  2:{ intros y Hy. destruct (jstr_eqb (t_registrationId y) (t_ticketNumber t)) eqn:E;
      [|reflexivity]. apply jstr_eqb_eq in E. exfalso. exact (proj2 (Hother y Hy) E). }
  rewrite (find_unique t_ticketNumber (tickets st) t (t_ticketNumber t) Hnd Hin eq_refl).
  reflexivity.
Qed.

End TicketNumber.

(** ** The QR verification route: proofs *)

Lemma ticket_registration_some (st : Store) (t : Ticket) (g : Registration) (ev : Event) :
  ticket_registration st t = Some (g, ev) ->
  In g (registrations st) /\ reg_id g = t_registrationId t /\
  In ev (events st) /\ ev_id ev = reg_eventId g.
Proof.
  unfold ticket_registration.
  destruct (find (fun g => jstr_eqb (reg_id g) (t_registrationId t)) (registrations st))
    as [g'|] eqn:Hg; [|discriminate].
  destruct (find (fun e => jstr_eqb (ev_id e) (reg_eventId g')) (events st))
    as [ev'|] eqn:He; [|discriminate].
  intros H. injection H as <- <-.
  apply find_some in Hg as [Hg1 Hg2]. apply find_some in He as [He1 He2].
  apply jstr_eqb_eq in Hg2, He2. auto.
Qed.

(** A payload [verifyQRCodeData] accepts has a truthy registrationId. *)
Lemma verify_valid_registrationId `{RT : Runtime} (env : option jstr) (now : Z) (s : jstr)
    (qrData : json) :
  verifyQRCodeData env now s = VValid qrData ->
  truthy (get_prop qrData (js "registrationId")) = true.
Proof.
  unfold verifyQRCodeData. intros H.
  destruct (json_parse s) as [[| | | | | ps]|]; try discriminate H. cbv zeta in H.
  destruct (truthy (get_prop (JObj ps) (js "registrationId"))) eqn:E;
    [|rewrite orb_true_r, orb_true_l in H; discriminate H].
  destruct (_ || _); [discriminate H|].
  destruct (negb (strict_eq_str _ _)); [discriminate H|].
  destruct (date_value _) as [t|];
    [destruct (negb (Qle_bool _ _)); [discriminate H|]|];
    injection H as <-; exact E.
Qed.

Lemma strict_eq_str_true (v : option json) (s : jstr) :
  strict_eq_str v s = true -> v = Some (JStr s).
Proof.
  destruct v as [[| | | h | |]|]; try discriminate. cbn [strict_eq_str].
  intros H. apply jstr_eqb_eq in H. subst h. reflexivity.
Qed.

Section RegistrationJoin.
Context `{RT : Runtime}.

(** What a registration that issued its ticket leaves in the store: the
    ticket joins its new registration and the registration's event. *)
Lemma registration_ticket_join (maxCapacity : Event -> option Z) (st : Store) (now : Z)
    (env : option jstr) (userId : jstr) (eventId category : option json)
    (nr nt : jstr) (rb : list N) (g : Registration) (c : jstr) (t : Ticket) (st' : Store) :
  ~ In nr (map reg_id (registrations st)) ->
  registration_post maxCapacity st now env userId eventId category nr nt rb true
    = (Registered g c (Some t), st') ->
  exists e ev, eventId = Some (JStr e) /\ e <> [] /\ In ev (events st) /\ ev_id ev = e /\
    ev_status ev = EventStatus.PUBLISHED /\
    g = new_registration nr e userId /\ t = ticket_of now env nt nr e userId rb /\
    st' = with_tickets (with_registrations st (registrations st ++ [g])) (tickets st ++ [t]) /\
    ticket_registration st' t = Some (g, ev).
Proof.
  intros Hfr H.
  destruct (registration_post_cases _ _ _ _ _ _ _ _ _ _ _ _ _ H)
    as [[_ Hno] | [e [ev [He [Hev [Hs [_ [_ Hres]]]]]]]];
    [exfalso; exact (Hno g c (Some t) eq_refl)|].
  destruct Hres as [[_ [Hr ->]] | [Hok _]]; [|discriminate Hok].
  injection Hr as -> _ ->.
  assert (Hne : e <> []).
  { intros ->. unfold registration_post in H. rewrite He in H. cbn in H. discriminate H. }
  exists e, ev.
  assert (Hevf := Hev). apply find_some in Hev as [Hevin Hevid]. apply jstr_eqb_eq in Hevid.
  do 8 (split; [first [assumption | reflexivity]|]).
  unfold ticket_registration.
  set (g := new_registration nr e userId).
  set (t := ticket_of now env nt nr e userId rb).
  change (registrations (with_tickets (with_registrations st (registrations st ++ [g]))
                                      (tickets st ++ [t])))
    with (registrations st ++ [g]).
  change (events (with_tickets (with_registrations st (registrations st ++ [g]))
                               (tickets st ++ [t])))
    with (events st).
  rewrite find_snoc; [change (reg_eventId g) with e; rewrite Hevf; reflexivity| |apply jstr_eqb_refl].
  intros y Hy. cbv beta. change (t_registrationId _) with nr.
  destruct (jstr_eqb (reg_id y) nr) eqn:E; [|reflexivity].
  apply jstr_eqb_eq in E. exfalso. apply Hfr. rewrite <- E. apply in_map, Hy.
Qed.

(** [verifyQRCodeData] accepts what [generateQRCodeData] issued with the
    same secret within 24 hours. *)
Lemma verify_generated (env : option jstr) (now t0 : Z) (r e u : jstr) :
  r <> [] -> e <> [] ->
  hmac_sha256_hex (secret_of env) (stringify (JObj (ticket_data r e u (iso_string t0)))) <> [] ->
  date_value (Some (JStr (iso_string t0))) = Some t0 ->
  (now - t0 <= 86400000)%Z ->
  verifyQRCodeData env now (generateQRCodeData env t0 r e u)
  = VValid (JObj (ticket_data r e u (iso_string t0)
      ++ [(js "hash", JStr (hmac_sha256_hex (secret_of env)
                             (stringify (JObj (ticket_data r e u (iso_string t0))))))])).
Proof.
  intros Hr He Hh Hd Ht.
  unfold generateQRCodeData, verifyQRCodeData. cbv zeta.
  set (ts := iso_string t0) in *.
  set (h := hmac_sha256_hex (secret_of env) (stringify (JObj (ticket_data r e u ts)))) in *.
  rewrite json_parse_signed.
  assert (G1 : obj_get (ticket_data r e u ts ++ [(js "hash", JStr h)]) (js "hash")
               = Some (JStr h)) by reflexivity.
  assert (G2 : obj_remove (ticket_data r e u ts ++ [(js "hash", JStr h)]) (js "hash")
               = ticket_data r e u ts) by reflexivity.
  cbv iota beta. rewrite G1, G2.
  change (get_prop (JObj (ticket_data r e u ts ++ [(js "hash", JStr h)])) (js "registrationId"))
    with (Some (JStr r)).
  change (get_prop (JObj (ticket_data r e u ts ++ [(js "hash", JStr h)])) (js "eventId"))
    with (Some (JStr e)).
  change (get_prop (JObj (ticket_data r e u ts ++ [(js "hash", JStr h)])) (js "timestamp"))
    with (Some (JStr ts)).
  rewrite (truthy_str h Hh), (truthy_str r Hr), (truthy_str e He). cbn [negb orb].
  unfold strict_eq_str. fold h. rewrite jstr_eqb_refl. cbn [negb].
  rewrite Hd. apply hoursDiff_le_24 in Ht. rewrite Ht. reflexivity.
Qed.

End RegistrationJoin.

Section QrVerifyTheorems.
Context `{RT : Runtime}.
Variable createdById : Event -> jstr.

(** The verification route answers [valid: true] only to a signed-in
    ADMIN or EVENT_ORGANIZER, for a QR text that [verifyQRCodeData]
    accepts at that time, whose eventId and userId are those of the
    ticket's registration; an organizer only for an event they created;
    and only between the event's start and end.  The ticket is the one of
    the registration the QR registrationId names when that is a string;
    when it is an object, Prisma reads it as a [StringFilter], and the
    ticket is any one whose registrationId passes that filter. *)
Theorem qr_verify_valid_sound (st : Store) (now : Z) (env : option jstr)
    (session : option (jstr * jstr)) (qrCodeData : option jstr)
    (t : Ticket) (g : Registration) (ev : Event) :
  qr_verify_post createdById st now env session qrCodeData = QVValid t g ev ->
  exists uid role s qrData,
    session = Some (uid, role) /\ uid <> [] /\
    (role = js "ADMIN" \/ role = js "EVENT_ORGANIZER") /\
    qrCodeData = Some s /\ verifyQRCodeData env now s = VValid qrData /\
    (get_prop qrData (js "registrationId") = Some (JStr (t_registrationId t)) \/
     exists ps p, get_prop qrData (js "registrationId") = Some (JObj ps) /\
       prisma_string_filter ps = Some p /\ p (t_registrationId t) = true) /\
    get_prop qrData (js "eventId") = Some (JStr (reg_eventId g)) /\
    get_prop qrData (js "userId") = Some (JStr (reg_userId g)) /\
    In t (tickets st) /\ In g (registrations st) /\ reg_id g = t_registrationId t /\
    In ev (events st) /\ ev_id ev = reg_eventId g /\
    (role = js "EVENT_ORGANIZER" -> createdById ev = uid) /\
    (ev_startDate ev <= now <= ev_endDate ev)%Z.
Proof.
  unfold qr_verify_post. intros H.
  destruct session as [[uid role]|]; [|discriminate].
  destruct uid as [|c0 uid0]; [discriminate|].
  destruct (negb (jstr_eqb role (js "ADMIN")) && negb (jstr_eqb role (js "EVENT_ORGANIZER")))
    eqn:Hrole; [discriminate|].
  destruct qrCodeData as [[|c1 s0]|]; try discriminate.
  destruct (verifyQRCodeData env now (c1 :: s0)) as [qrData|err] eqn:Hv; [|discriminate].
  destruct (registration_where (get_prop qrData (js "registrationId"))) as [p|] eqn:Hw;
    [|discriminate].
  destruct (find (fun t => p (t_registrationId t)) (tickets st)) as [t'|] eqn:Hf;
    [|discriminate].
  destruct (ticket_registration st t') as [[g' ev']|] eqn:Htr; [|discriminate].
  destruct (negb (strict_eq_str (get_prop qrData (js "eventId")) (reg_eventId g'))
            || negb (strict_eq_str (get_prop qrData (js "userId")) (reg_userId g'))) eqn:Hm;
    [discriminate|].
  destruct (jstr_eqb role (js "EVENT_ORGANIZER") && negb (jstr_eqb (createdById ev') (c0 :: uid0)))
    eqn:Ho; [discriminate|].
  destruct (now <? ev_startDate ev')%Z eqn:Hs; [discriminate|].
  destruct (ev_endDate ev' <? now)%Z eqn:He; [discriminate|].
  injection H as <- <- <-.
  apply find_some in Hf as [Hfin Hfr].
  destruct (ticket_registration_some _ _ _ _ Htr) as [Hg1 [Hg2 [He1 He2]]].
  apply orb_false_iff in Hm as [Hm1 Hm2]. apply negb_false_iff in Hm1, Hm2.
  apply strict_eq_str_true in Hm1, Hm2.
  exists (c0 :: uid0), role, (c1 :: s0), qrData.
  split; [reflexivity|]. split; [discriminate|].
  split.
  { apply andb_false_iff in Hrole as [Hx|Hx]; apply negb_false_iff, jstr_eqb_eq in Hx; auto. }
  split; [reflexivity|]. split; [exact Hv|].
  split.
  { assert (Hrid := verify_valid_registrationId env now (c1 :: s0) qrData Hv).
    destruct (get_prop qrData (js "registrationId")) as [[| | | r | | ps]|];
      cbn [registration_where] in Hw; try discriminate Hw; try discriminate Hrid.
    - injection Hw as <-. apply jstr_eqb_eq in Hfr. left. rewrite Hfr. reflexivity.
    - right. exists ps, p. auto. }
  split; [exact Hm1|]. split; [exact Hm2|].
  do 5 (split; [assumption|]).
  split.
  { intros ->. rewrite jstr_eqb_refl in Ho. cbn [andb] in Ho.
    apply negb_false_iff, jstr_eqb_eq in Ho. exact Ho. }
  apply Z.ltb_ge in Hs, He. lia.
Qed.

(** End to end: the QR text of a ticket just issued by a registration
    passes the verification route, with that ticket, its registration and
    its event, when a staff member (an organizer for an event they
    created) checks it with the same secret within 24 hours of issuance
    and during the event. *)
Theorem qr_verify_issued_ticket (maxCapacity : Event -> option Z) (st : Store) (t0 now : Z)
    (env : option jstr) (userId : jstr) (eventId category : option json)
    (nr nt : jstr) (rb : list N) (g : Registration) (c : jstr) (t : Ticket) (st' : Store)
    (sid role : jstr) :
  ~ In nr (map t_registrationId (tickets st)) ->
  ~ In nr (map reg_id (registrations st)) ->
  nr <> [] ->
  registration_post maxCapacity st t0 env userId eventId category nr nt rb true
    = (Registered g c (Some t), st') ->
  hmac_sha256_hex (secret_of env)
    (stringify (JObj (ticket_data nr (reg_eventId g) userId (iso_string t0)))) <> [] ->
  date_value (Some (JStr (iso_string t0))) = Some t0 ->
  (now - t0 <= 86400000)%Z ->
  sid <> [] -> (role = js "ADMIN" \/ role = js "EVENT_ORGANIZER") ->
  (forall ev, In ev (events st) -> ev_id ev = reg_eventId g ->
     (ev_startDate ev <= now <= ev_endDate ev)%Z /\
     (role = js "EVENT_ORGANIZER" -> createdById ev = sid)) ->
  exists ev, qr_verify_post createdById st' now env (Some (sid, role)) (t_qrCodeData t)
             = QVValid t g ev.
Proof.
  intros Hft Hfr Hne H Hh Hd Ht Hsid Hrole Hev.
  destruct (registration_ticket_join _ _ _ _ _ _ _ _ _ _ _ _ _ _ Hfr H)
    as [e [ev [_ [Hen [Hevin [Hevid [_ [-> [-> [-> Htr]]]]]]]]]].
  exists ev. cbn [reg_eventId new_registration] in Hh, Hev.
  destruct (Hev ev Hevin Hevid) as [[Hlo Hhi] Horg].
  unfold qr_verify_post.
  destruct sid as [|c0 sid0]; [congruence|].
  assert (Hr : negb (jstr_eqb role (js "ADMIN")) && negb (jstr_eqb role (js "EVENT_ORGANIZER"))
               = false).
  { destruct Hrole as [->| ->]; reflexivity. }
  rewrite Hr.
  unfold ticket_of at 1. cbn [t_qrCodeData].
  destruct (generateQRCodeData env t0 nr e userId) as [|q0 q] eqn:Hq.
  { exfalso. destruct (json_parse_payload env t0 nr e userId) as [ps [Hp _]].
    rewrite Hq in Hp. discriminate Hp. }
  rewrite <- Hq, (verify_generated env now t0 nr e userId Hne Hen Hh Hd Ht).
  change (get_prop (JObj (ticket_data nr e userId (iso_string t0) ++ _)) (js "registrationId"))
    with (Some (JStr nr)).
  change (get_prop (JObj (ticket_data nr e userId (iso_string t0) ++ _)) (js "eventId"))
    with (Some (JStr e)).
  change (get_prop (JObj (ticket_data nr e userId (iso_string t0) ++ _)) (js "userId"))
    with (Some (JStr userId)).
  cbn [registration_where]. cbv iota beta.
  change (tickets (with_tickets (with_registrations st (registrations st ++ [new_registration nr e userId]))
                                (tickets st ++ [ticket_of t0 env nt nr e userId rb])))
    with (tickets st ++ [ticket_of t0 env nt nr e userId rb]).
  rewrite find_snoc; [| |apply jstr_eqb_refl].
  2:{ intros y Hy. destruct (jstr_eqb (t_registrationId y) nr) eqn:E; [|reflexivity].
      apply jstr_eqb_eq in E. exfalso. apply Hft. rewrite <- E. apply in_map, Hy. }
  rewrite Htr. cbn [strict_eq_str reg_eventId reg_userId new_registration].
  rewrite !jstr_eqb_refl. cbn [negb orb].
  assert (Ho : jstr_eqb role (js "EVENT_ORGANIZER") && negb (jstr_eqb (createdById ev) (c0 :: sid0))
               = false).
  { destruct (jstr_eqb role (js "EVENT_ORGANIZER")) eqn:E; [|reflexivity].
    apply jstr_eqb_eq in E. rewrite (Horg E), jstr_eqb_refl. reflexivity. }
  rewrite Ho, (proj2 (Z.ltb_ge _ _) Hlo), (proj2 (Z.ltb_ge _ _) Hhi). reflexivity.
Qed.

End QrVerifyTheorems.

Definition sample_numbered_ticket : Ticket :=
  {| t_id := js "t1"; t_registrationId := js "r1";
     t_ticketNumber := generateTicketNumber 1700000000000 [222; 173; 190; 239];
     t_qrCodeData := None |}.

Lemma ticket_number_scan_resolves_witness :
  scan_resolve {| events := [sample_event]; registrations := [sample_registration];
                  tickets := [sample_numbered_ticket]; attendances := []; sessions := [] |}
    (t_ticketNumber sample_numbered_ticket)
  = inr (JStr (t_ticketNumber sample_numbered_ticket), sample_numbered_ticket).
Proof.
  apply (ticket_number_scan_resolves _ sample_numbered_ticket 1700000000000 [222; 173; 190; 239]).
  - left. reflexivity.
  - reflexivity.
  - repeat constructor.
  - repeat constructor. intros [].
  - intros t' [<-|[]]. split; [discriminate|]. intros E. vm_compute in E. discriminate E.
Defined.


Lemma qr_verify_valid_sound_witness :
  qr_verify_post (fun _ => js "org") (snd sample_registration_run) 2000 None
    (Some (js "admin", js "ADMIN")) (Some (generateQRCodeData None 500 (js "r1") (js "e1") (js "u1")))
  = QVValid (ticket_of 500 None (js "t1") (js "r1") (js "e1") (js "u1") [1; 2; 3; 4])
            (new_registration (js "r1") (js "e1") (js "u1")) sample_event /\
  exists uid role s qrData,
    Some (js "admin", js "ADMIN") = Some (uid, role) /\ uid <> [] /\
    (role = js "ADMIN" \/ role = js "EVENT_ORGANIZER") /\
    Some (generateQRCodeData None 500 (js "r1") (js "e1") (js "u1")) = Some s /\
    verifyQRCodeData None 2000 s = VValid qrData /\
    (get_prop qrData (js "registrationId") = Some (JStr (js "r1")) \/
     exists ps p, get_prop qrData (js "registrationId") = Some (JObj ps) /\
       prisma_string_filter ps = Some p /\ p (js "r1") = true) /\
    get_prop qrData (js "eventId") = Some (JStr (js "e1")) /\
    get_prop qrData (js "userId") = Some (JStr (js "u1")) /\
    In (ticket_of 500 None (js "t1") (js "r1") (js "e1") (js "u1") [1; 2; 3; 4])
       (tickets (snd sample_registration_run)) /\
    In (new_registration (js "r1") (js "e1") (js "u1")) (registrations (snd sample_registration_run)) /\
    js "r1" = js "r1" /\
    In sample_event (events (snd sample_registration_run)) /\ ev_id sample_event = js "e1" /\
    (role = js "EVENT_ORGANIZER" -> js "org" = uid) /\
    (ev_startDate sample_event <= 2000 <= ev_endDate sample_event)%Z.
Proof.
  assert (H : qr_verify_post (fun _ => js "org") (snd sample_registration_run) 2000 None
    (Some (js "admin", js "ADMIN")) (Some (generateQRCodeData None 500 (js "r1") (js "e1") (js "u1")))
    = QVValid (ticket_of 500 None (js "t1") (js "r1") (js "e1") (js "u1") [1; 2; 3; 4])
              (new_registration (js "r1") (js "e1") (js "u1")) sample_event) by (vm_compute; reflexivity).
  split; [exact H|].
  exact (qr_verify_valid_sound (fun _ => js "org") _ _ _ _ _ _ _ _ H).
Defined.

Lemma qr_verify_issued_ticket_witness :
  exists ev, qr_verify_post (fun _ => js "org") (snd sample_registration_run) 2000 None
               (Some (js "admin", js "ADMIN"))
               (t_qrCodeData (ticket_of 500 None (js "t1") (js "r1") (js "e1") (js "u1") [1; 2; 3; 4]))
             = QVValid (ticket_of 500 None (js "t1") (js "r1") (js "e1") (js "u1") [1; 2; 3; 4])
                       (new_registration (js "r1") (js "e1") (js "u1")) ev.
Proof.
  apply (qr_verify_issued_ticket (fun _ => js "org") (fun _ => Some 100%Z) sample_registration_store
           500 2000 None (js "u1") (Some (JStr (js "e1"))) None (js "r1") (js "t1") [1; 2; 3; 4]
           (new_registration (js "r1") (js "e1") (js "u1")) (js "PUBLIC")
           (ticket_of 500 None (js "t1") (js "r1") (js "e1") (js "u1") [1; 2; 3; 4])
           (snd sample_registration_run) (js "admin") (js "ADMIN")).
  - intros [].
  - intros [].
  - discriminate.
  - reflexivity.
  - vm_compute. discriminate.
  - reflexivity.
  - lia.
  - discriminate.
  - left. reflexivity.
  - intros ev [<-|[]] _. split; [cbn; lia | discriminate].
Defined.

(** ** Attendance rows across requests *)

(** The ids of the rows are distinct (the primary key), and so are their
    partitions [(registrationId, sessionId)]. *)
Definition attendance_keys_unique (st : Store) : Prop :=
  NoDup (map att_id (attendances st)) /\
  NoDup (map (fun a => (att_registrationId a, att_sessionId a)) (attendances st)).

Lemma check_in_keys_unique (st : Store) (now : Z) (r : jstr) (sess : option jstr)
    (method : CheckInMethod.t) :
  attendance_keys_unique st -> attendance_keys_unique (snd (check_in st now r sess method)).
Proof.
  intros [Hid Hkey]. unfold check_in.
  destruct (find (same_partition r sess) (attendances st)) as [x|] eqn:Hf; [split; assumption|].
  destruct (negb (registration_exists st r) || negb (session_exists st sess));
    [split; assumption|].
  unfold attendance_keys_unique, with_attendances. cbv zeta. cbn [snd attendances].
  rewrite !map_app. cbn [map].
  split.
  - apply NoDup_snoc; [exact Hid | apply fresh_id_fresh].
  - apply NoDup_snoc; [exact Hkey|]. cbn [att_registrationId att_sessionId].
    intros Hin. apply in_map_iff in Hin as [b [Hb Hbin]]. injection Hb as Hbr Hbs.
    assert (Hp := find_none _ _ Hf b Hbin). cbv beta in Hp.
    rewrite (proj2 (same_partition_iff r sess b) (conj Hbr Hbs)) in Hp. discriminate.
Qed.

Lemma check_out_rows (st : Store) (now : Z) (r : jstr) (sess : option jstr) :
  NoDup (map att_id (attendances st)) ->
  attendances (snd (check_out st now r sess)) = attendances st \/
  exists pre a post, attendances st = pre ++ a :: post /\ is_open a = true /\
    attendances (snd (check_out st now r sess)) = pre ++ set_checkout now a :: post.
Proof.
  intros Hnd. unfold check_out.
  destruct (find (fun a => same_partition r sess a && is_open a) (attendances st)) as [x|] eqn:Hf;
    [right | left; reflexivity].
  destruct (find_split _ _ _ Hf) as [pre [post Hl]].
  apply find_some in Hf as [_ Hx]. apply andb_true_iff in Hx as [_ Ho].
  exists pre, x, post. split; [exact Hl|]. split; [exact Ho|].
  cbn [snd attendances with_attendances]. rewrite Hl. rewrite Hl in Hnd.
  apply map_update_one, Hnd.
Qed.

Lemma check_out_keys_unique (st : Store) (now : Z) (r : jstr) (sess : option jstr) :
  attendance_keys_unique st -> attendance_keys_unique (snd (check_out st now r sess)).
Proof.
  intros [Hid Hkey]. unfold attendance_keys_unique.
  destruct (check_out_rows st now r sess Hid) as [-> | [pre [a [post [Hl [_ ->]]]]]];
    [split; assumption|].
  rewrite Hl in Hid, Hkey. rewrite map_app in Hid, Hkey |- *. rewrite map_app.
  cbn [map] in *. split; assumption.
Qed.

Lemma check_out_filter_rows (st : Store) (now : Z) (p : jstr -> bool) (sess : option jstr) :
  NoDup (map att_id (attendances st)) ->
  attendances (snd (check_out_filter st now p sess)) = attendances st \/
  exists pre a post, attendances st = pre ++ a :: post /\ is_open a = true /\
    attendances (snd (check_out_filter st now p sess)) = pre ++ set_checkout now a :: post.
Proof.
  intros Hnd. unfold check_out_filter.
  destruct (find (fun a => p (att_registrationId a) && opt_jstr_eqb (att_sessionId a) sess
                           && is_open a) (attendances st)) as [x|] eqn:Hf;
    [right | left; reflexivity].
  destruct (find_split _ _ _ Hf) as [pre [post Hl]].
  apply find_some in Hf as [_ Hx]. apply andb_true_iff in Hx as [_ Ho].
  exists pre, x, post. split; [exact Hl|]. split; [exact Ho|].
  cbn [snd attendances with_attendances]. rewrite Hl. rewrite Hl in Hnd.
  apply map_update_one, Hnd.
Qed.

Lemma check_out_filter_keys_unique (st : Store) (now : Z) (p : jstr -> bool) (sess : option jstr) :
  attendance_keys_unique st -> attendance_keys_unique (snd (check_out_filter st now p sess)).
Proof.
  intros [Hid Hkey]. unfold attendance_keys_unique.
  destruct (check_out_filter_rows st now p sess Hid) as [-> | [pre [a [post [Hl [_ ->]]]]]];
    [split; assumption|].
  rewrite Hl in Hid, Hkey. rewrite map_app in Hid, Hkey |- *. rewrite map_app.
  cbn [map] in *. split; assumption.
Qed.

Lemma attendance_post_shape (st : Store) (now : Z) (registrationId : option json)
    (sessionId : option jstr) :
  snd (attendance_post st now registrationId sessionId) = st \/
  exists r, snd (attendance_post st now registrationId sessionId)
            = snd (check_in st now r (nonempty sessionId) CheckInMethod.MANUAL).
Proof.
  unfold attendance_post.
  destruct (negb (truthy registrationId)); [left; reflexivity|].
  destruct registrationId as [[| | | r | |]|]; try (left; reflexivity).
  destruct (find (fun g => jstr_eqb (reg_id g) r) (registrations st)) as [g|];
    [|left; reflexivity].
  destruct (negb (is_confirmed (reg_status g))); [left; reflexivity|].
  right. exists r. reflexivity.
Qed.

Section ScanShape.
Context `{RT : Runtime}.

Lemma scan_post_shape (st : Store) (now : Z) (qrData : jstr) (sessionId action : option jstr) :
  snd (scan_post st now qrData sessionId action) = st \/
  (exists r, snd (scan_post st now qrData sessionId action)
             = snd (check_in st now r (nonempty sessionId) CheckInMethod.QR_CODE)) \/
  (exists r, snd (scan_post st now qrData sessionId action)
             = snd (check_out st now r (nonempty sessionId))) \/
  (exists p, snd (scan_post st now qrData sessionId action)
             = snd (check_out_filter st now p (nonempty sessionId))).
Proof.
  unfold scan_post.
  destruct (scan_checks st now qrData) as [resp|[[[rid t] g] e]]; [left; reflexivity|].
  cbv zeta.
  destruct (jstr_eqb (match action with Some a => a | None => js "checkin" end) (js "checkin")).
  - destruct rid as [| | | r | | ps]; try (left; reflexivity).
    + right. left. exists r. reflexivity.
    + destruct (prisma_string_filter ps) as [p|]; [|left; reflexivity].
      left. unfold check_in_filter.
      destruct (find _ (attendances st)); reflexivity.
  - destruct (jstr_eqb (match action with Some a => a | None => js "checkin" end) (js "checkout")).
    + destruct rid as [| | | r | | ps]; try (left; reflexivity).
      * right. right. left. exists r. reflexivity.
      * destruct (prisma_string_filter ps) as [p|]; [|left; reflexivity].
        right. right. right. exists p. reflexivity.
    + left. reflexivity.
Qed.

(** Neither check-in route (the QR scan and the manual [POST
    /api/attendance]) ever gives two rows the same id or the same
    partition [(registrationId, sessionId || null)]: a store where both
    are distinct keeps them distinct after any request. *)
Theorem attendance_routes_keep_keys_unique (st : Store) (now : Z) (qrData : jstr)
    (sessionId action : option jstr) (registrationId : option json) :
  attendance_keys_unique st ->
  attendance_keys_unique (snd (scan_post st now qrData sessionId action)) /\
  attendance_keys_unique (snd (attendance_post st now registrationId sessionId)).
Proof.
  intros Hu. split.
  - destruct (scan_post_shape st now qrData sessionId action)
      as [-> | [[r ->] | [[r ->] | [p ->]]]].
    + exact Hu.
    + apply check_in_keys_unique, Hu.
    + apply check_out_keys_unique, Hu.
    + apply check_out_filter_keys_unique, Hu.
  - destruct (attendance_post_shape st now registrationId sessionId) as [-> | [r ->]].
    + exact Hu.
    + apply check_in_keys_unique, Hu.
Qed.

(** No request to either check-in route deletes an attendance row or
    alters a checked-out one: every row is still there afterwards, except
    that the scan route may replace an open row by the same row checked
    out at the request time. *)
Theorem attendance_routes_keep_rows (st : Store) (now : Z) (qrData : jstr)
    (sessionId action : option jstr) (registrationId : option json) (a : Attendance) :
  NoDup (map att_id (attendances st)) ->
  In a (attendances st) ->
  (In a (attendances (snd (scan_post st now qrData sessionId action))) \/
   (is_open a = true /\
    In (set_checkout now a) (attendances (snd (scan_post st now qrData sessionId action))))) /\
  In a (attendances (snd (attendance_post st now registrationId sessionId))).
Proof.
  intros Hnd Hin.
  assert (Hci : forall r sess m, In a (attendances (snd (check_in st now r sess m)))).
  { intros r sess m. unfold check_in.
    destruct (find (same_partition r sess) (attendances st)); [exact Hin|].
    destruct (negb (registration_exists st r) || negb (session_exists st sess)); [exact Hin|].
    cbn [snd]. unfold with_attendances. cbn [attendances]. apply in_or_app. left. exact Hin. }
  split.
  - assert (Hupd : forall atts, (atts = attendances st \/
              exists pre x post, attendances st = pre ++ x :: post /\ is_open x = true /\
                atts = pre ++ set_checkout now x :: post) ->
              In a atts \/ (is_open a = true /\ In (set_checkout now a) atts)).
    { intros atts [-> | [pre [x [post [Hl [Ho ->]]]]]]; [left; exact Hin|].
      rewrite Hl in Hin. apply in_app_or in Hin as [Hin | [<- | Hin]].
      - left. apply in_or_app. left. exact Hin.
      - right. split; [exact Ho|]. apply in_or_app. right. left. reflexivity.
      - left. apply in_or_app. right. right. exact Hin. }
    destruct (scan_post_shape st now qrData sessionId action)
      as [-> | [[r ->] | [[r ->] | [p ->]]]].
    + left. exact Hin.
    + left. apply Hci.
    + apply Hupd, check_out_rows, Hnd.
    + apply Hupd, check_out_filter_rows, Hnd.
  - destruct (attendance_post_shape st now registrationId sessionId) as [-> | [r ->]].
    + exact Hin.
    + apply Hci.
Qed.

End ScanShape.

Section Lifecycle.
Context `{RT : Runtime}.

(** The life of a partition under the scan route: with the QR checks
    passing at three times, for a QR registrationId naming a registration
    and a session (if one is given) that exist, a first check-in creates
    its row, a check-out closes that row, and from then on a check-in is
    refused with the closed row and a check-out finds no open row; the
    store no longer changes. *)
Theorem scan_check_in_out_lifecycle (st : Store) (q : jstr) (sessionId : option jstr)
    (r : jstr) (t : Ticket) (g : Registration) (e : Event) (n1 n2 n3 : Z) :
  NoDup (map att_id (attendances st)) ->
  (forall a, In a (attendances st) ->
     ~ (att_registrationId a = r /\ att_sessionId a = nonempty sessionId)) ->
  registration_named st r -> session_named st (nonempty sessionId) ->
  scan_checks st n1 q = inr (JStr r, t, g, e) ->
  scan_checks st n2 q = inr (JStr r, t, g, e) ->
  scan_checks st n3 q = inr (JStr r, t, g, e) ->
  exists a st1 st2,
    scan_post st n1 q sessionId (Some (js "checkin")) = (CheckInSuccessful a, st1) /\
    scan_post st1 n2 q sessionId (Some (js "checkout"))
      = (CheckOutSuccessful (set_checkout n2 a), st2) /\
    scan_post st2 n3 q sessionId (Some (js "checkin"))
      = (AlreadyCheckedIn (set_checkout n2 a), st2) /\
    scan_post st2 n3 q sessionId (Some (js "checkout")) = (NoActiveCheckIn, st2) /\
    att_registrationId a = r /\ att_sessionId a = nonempty sessionId /\
    att_checkInTime a = Some n1 /\ att_checkOutTime (set_checkout n2 a) = Some n2.
Proof.
  intros Hnd Hno Hreg Hses H1 H2 H3.
  set (sess := nonempty sessionId) in *.
  assert (Hrow : forall b, In b (attendances st) -> same_partition r sess b = false).
  { intros b Hb. destruct (same_partition r sess b) eqn:E; [|reflexivity].
    apply same_partition_iff in E. exfalso. exact (Hno b Hb E). }
  set (a := {| att_id := fresh_id (attendances st); att_registrationId := r;
               att_sessionId := sess; att_checkInTime := Some n1;
               att_checkOutTime := None; att_method := CheckInMethod.QR_CODE |}).
  set (st1 := with_attendances st (attendances st ++ [a])).
  set (st2 := with_attendances st1 (attendances st ++ [set_checkout n2 a])).
  exists a, st1, st2.
  assert (Hsp : same_partition r sess a = true) by (apply same_partition_iff; auto).
  assert (Hspc : same_partition r sess (set_checkout n2 a) = true)
    by (apply same_partition_iff; auto).
  split.
  { unfold scan_post. rewrite H1. cbv zeta. fold sess. rewrite jstr_eqb_refl.
    unfold check_in. rewrite (find_none_intro _ _ Hrow).
    rewrite (proj2 (registration_exists_iff st r) Hreg), (proj2 (session_exists_iff st sess) Hses).
    reflexivity. }
  split.
  { unfold scan_post. change (scan_checks st1 n2 q) with (scan_checks st n2 q). rewrite H2. cbv zeta. fold sess.
    change (jstr_eqb (js "checkout") (js "checkin")) with false. cbv iota.
    rewrite jstr_eqb_refl. unfold check_out.
    change (attendances st1) with (attendances st ++ [a]).
    rewrite find_snoc.
    2:{ intros b Hb. rewrite (Hrow b Hb). reflexivity. }
    2:{ rewrite Hsp. reflexivity. }
    rewrite (map_update_one n2 (attendances st) [] a).
    - reflexivity.
    - rewrite map_app. apply NoDup_snoc; [exact Hnd | apply fresh_id_fresh]. }
  split.
  { unfold scan_post.
    change (scan_checks st2 n3 q) with (scan_checks st n3 q). rewrite H3.
    cbv zeta. fold sess. rewrite jstr_eqb_refl. unfold check_in.
    change (attendances st2) with (attendances st ++ [set_checkout n2 a]).
    rewrite (find_snoc _ _ _ Hrow Hspc). reflexivity. }
  split.
  { unfold scan_post.
    change (scan_checks st2 n3 q) with (scan_checks st n3 q). rewrite H3.
    cbv zeta. fold sess. change (jstr_eqb (js "checkout") (js "checkin")) with false. cbv iota.
    rewrite jstr_eqb_refl. unfold check_out.
    change (attendances st2) with (attendances st ++ [set_checkout n2 a]).
    rewrite find_none_intro; [reflexivity|].
    intros b Hb. apply in_app_or in Hb as [Hb | [<- | []]].
    - rewrite (Hrow b Hb). reflexivity.
    - rewrite Hspc. reflexivity. }
  repeat split.
Qed.

End Lifecycle.

Definition sample_open_row : Attendance :=
  {| att_id := 1; att_registrationId := js "r1"; att_sessionId := None;
     att_checkInTime := Some 1500%Z; att_checkOutTime := None;
     att_method := CheckInMethod.QR_CODE |}.

Definition sample_store_checked_in : Store := with_attendances sample_store [sample_open_row].

Lemma attendance_routes_keep_keys_unique_witness :
  attendance_keys_unique sample_store_checked_in /\
  attendance_keys_unique (snd (scan_post sample_store_checked_in 2000 sample_qr None (Some (js "checkout")))) /\
  attendance_keys_unique (snd (attendance_post sample_store_checked_in 2000 (Some (JStr (js "r1"))) None)).
Proof.
  assert (H : attendance_keys_unique sample_store_checked_in)
    by (split; repeat constructor; intros []).
  split; [exact H|].
  exact (attendance_routes_keep_keys_unique sample_store_checked_in 2000 sample_qr None
           (Some (js "checkout")) (Some (JStr (js "r1"))) H).
Defined.

Lemma attendance_routes_keep_rows_witness :
  NoDup (map att_id (attendances sample_store_checked_in)) /\
  In sample_open_row (attendances sample_store_checked_in) /\
  (In sample_open_row
      (attendances (snd (scan_post sample_store_checked_in 2000 sample_qr None (Some (js "checkout"))))) \/
   (is_open sample_open_row = true /\
    In (set_checkout 2000 sample_open_row)
      (attendances (snd (scan_post sample_store_checked_in 2000 sample_qr None (Some (js "checkout"))))))) /\
  In sample_open_row
     (attendances (snd (attendance_post sample_store_checked_in 2000 (Some (JStr (js "r1"))) None))).
Proof.
  assert (H1 : NoDup (map att_id (attendances sample_store_checked_in)))
    by (repeat constructor; intros []).
  assert (H2 : In sample_open_row (attendances sample_store_checked_in)) by (left; reflexivity).
  split; [exact H1|]. split; [exact H2|].
  exact (attendance_routes_keep_rows sample_store_checked_in 2000 sample_qr None
           (Some (js "checkout")) (Some (JStr (js "r1"))) sample_open_row H1 H2).
Defined.

Lemma scan_check_in_out_lifecycle_witness :
  scan_checks sample_store 2000 sample_qr
    = inr (JStr (js "r1"), sample_ticket, sample_registration, sample_event) /\
  exists a st1 st2,
    scan_post sample_store 2000 sample_qr None (Some (js "checkin")) = (CheckInSuccessful a, st1) /\
    scan_post st1 3000 sample_qr None (Some (js "checkout"))
      = (CheckOutSuccessful (set_checkout 3000 a), st2) /\
    scan_post st2 4000 sample_qr None (Some (js "checkin"))
      = (AlreadyCheckedIn (set_checkout 3000 a), st2) /\
    scan_post st2 4000 sample_qr None (Some (js "checkout")) = (NoActiveCheckIn, st2) /\
    att_registrationId a = js "r1" /\ att_sessionId a = nonempty None /\
    att_checkInTime a = Some 2000%Z /\ att_checkOutTime (set_checkout 3000 a) = Some 3000%Z.
Proof.
  assert (Hc : forall n, (1000 <= n <= 9000)%Z -> scan_checks sample_store n sample_qr
                 = inr (JStr (js "r1"), sample_ticket, sample_registration, sample_event)).
  { intros n Hn. unfold scan_checks.
    assert (Hr : scan_resolve sample_store sample_qr = inr (JStr (js "r1"), sample_ticket))
      by (vm_compute; reflexivity).
    rewrite Hr. unfold scan_preconditions.
    assert (Ht : ticket_registration sample_store sample_ticket
                 = Some (sample_registration, sample_event)) by reflexivity.
    rewrite Ht. unfold sample_registration, sample_event. cbn.
    replace (n <? 1000)%Z with false by (symmetry; apply Z.ltb_ge; lia).
    replace (9000 <? n)%Z with false by (symmetry; apply Z.ltb_ge; lia). reflexivity. }
  split; [apply Hc; lia|].
  apply (scan_check_in_out_lifecycle sample_store sample_qr None (js "r1") sample_ticket
           sample_registration sample_event 2000 3000 4000).
  - constructor.
  - intros a [].
  - exists sample_registration. split; [left; reflexivity | reflexivity].
  - exact I.
  - apply Hc; lia.
  - apply Hc; lia.
  - apply Hc; lia.
Defined.

(** ** The listing routes: [GET /api/attendance] and [GET /api/registrations]

    The session is [Some (id, role)] when signed in.  Search parameters
    are [None] when absent; an empty one is falsy like an absent one.
    The routes' [include]s and [orderBy] only shape and sort the answer:
    the rows are listed here in store order, and the statements below are
    about which rows are returned.  [createdById] is the event's
    [createdById] column; [date_bounds d] is [new Date(d)] and the same
    time one calendar day later, [None] for an Invalid Date, which Prisma
    refuses (the handler's [catch] answers 500). *)

Inductive list_response (A : Type) :=
| LUnauthorized                                            (* 401 *)
| LError                                                   (* 500 *)
| LRows (rows : list A).
Arguments LUnauthorized {A}.
Arguments LError {A}.
Arguments LRows {A} rows.

(** An optional equality filter. *)
Definition opt_match (filter : option jstr) (s : jstr) : bool :=
  match filter with
  | Some x => jstr_eqb s x
  | None => true
  end.

(** The [where] of the attendance listing. *)
Record att_where := {
  aw_registrationId : option jstr;
  aw_registration : option (option jstr * option jstr * option jstr);
    (* eventId, userId, event.createdById *)
  aw_sessionId : option jstr;
  aw_checkInTime : option (Z * Z)  (* gte, lt *)
}.

Section ListRoutes.
Variable createdById : Event -> jstr.
Variable date_bounds : jstr -> option (Z * Z).

Definition attendance_where (uid role : jstr) (eventId registrationId sessionId date : option jstr)
  : option att_where :=
  let reg0 :=
    match nonempty registrationId with
    | Some _ => None
    | None =>
        match nonempty eventId with
        | Some e => Some (Some e, None, None)
        | None => None
        end
    end in
  let prev_eventId := match reg0 with Some (e, _, _) => e | None => None end in
  let reg :=
    if jstr_eqb role (js "USER") then Some (prev_eventId, Some uid, None)
    else if jstr_eqb role (js "EVENT_ORGANIZER") then Some (prev_eventId, None, Some uid)
    else reg0 in
  let mk b := {| aw_registrationId := nonempty registrationId; aw_registration := reg;
                 aw_sessionId := nonempty sessionId; aw_checkInTime := b |} in
  match nonempty date with
  | None => Some (mk None)
  | Some d =>
      match date_bounds d with
      | None => None
      | Some b => Some (mk (Some b))
      end
  end.

(** The relation filter [registration: { eventId?, userId?, event?: {
    createdById } }] on the row's required registration. *)
Definition registration_filter (st : Store) (f : option jstr * option jstr * option jstr)
    (r : jstr) : bool :=
  let '(e, u, c) := f in
  match find (fun g => jstr_eqb (reg_id g) r) (registrations st) with
  | None => false
  | Some g =>
      opt_match e (reg_eventId g) && opt_match u (reg_userId g) &&
      match c with
      | None => true
      | Some c =>
          match find (fun ev => jstr_eqb (ev_id ev) (reg_eventId g)) (events st) with
          | Some ev => jstr_eqb (createdById ev) c
          | None => false
          end
      end
  end.

Definition attendance_matches (st : Store) (w : att_where) (a : Attendance) : bool :=
  opt_match (aw_registrationId w) (att_registrationId a) &&
  match aw_registration w with
  | Some f => registration_filter st f (att_registrationId a)
  | None => true
  end &&
  match aw_sessionId w with
  | Some s => opt_jstr_eqb (att_sessionId a) (Some s)
  | None => true
  end &&
  match aw_checkInTime w with
  | Some (lo, hi) =>
      match att_checkInTime a with
      | Some c => (lo <=? c)%Z && (c <? hi)%Z
      | None => false
      end
  | None => true
  end.

Definition attendance_get (st : Store) (session : option (jstr * jstr))
    (eventId registrationId sessionId date : option jstr) : list_response Attendance :=
  match session with
  | None => LUnauthorized
  | Some (uid, role) =>
      match attendance_where uid role eventId registrationId sessionId date with
      | None => LError
      | Some w => LRows (filter (attendance_matches st w) (attendances st))
      end
  end.

(** The [where] of the registration listing. *)
Record reg_where := {
  rw_userId : option jstr;
  rw_eventId : option jstr;
  rw_status : option jstr;
  rw_createdById : option jstr
}.

Definition registrations_where (uid role : jstr) (eventId userId statusParam : option jstr)
  : reg_where :=
  let status :=
    match nonempty statusParam with
    | Some s => if isValidRegistrationStatus (Some (JStr s)) then Some s else None
    | None => None
    end in
  if jstr_eqb role (js "ADMIN") || jstr_eqb role (js "EVENT_ORGANIZER") then
    {| rw_userId := nonempty userId; rw_eventId := nonempty eventId; rw_status := status;
       rw_createdById := if jstr_eqb role (js "EVENT_ORGANIZER") then Some uid else None |}
  else
    {| rw_userId := Some uid; rw_eventId := nonempty eventId; rw_status := status;
       rw_createdById := None |}.

Definition registration_matches (st : Store) (w : reg_where) (g : Registration) : bool :=
  opt_match (rw_userId w) (reg_userId g) && opt_match (rw_eventId w) (reg_eventId g) &&
  opt_match (rw_status w) (reg_status_str (reg_status g)) &&
  match rw_createdById w with
  | None => true
  | Some c =>
      match find (fun ev => jstr_eqb (ev_id ev) (reg_eventId g)) (events st) with
      | Some ev => jstr_eqb (createdById ev) c
      | None => false
      end
  end.

Definition registrations_get (st : Store) (session : option (jstr * jstr))
    (eventId userId status : option jstr) : list_response Registration :=
  match session with
  | Some (((_ :: _) as uid), role) =>
      LRows (filter (registration_matches st (registrations_where uid role eventId userId status))
                    (registrations st))
  | _ => LUnauthorized
  end.

End ListRoutes.

(** ** The listing routes: proofs *)

Lemma opt_match_some (x s : jstr) : opt_match (Some x) s = true -> s = x.
Proof. cbn [opt_match]. apply jstr_eqb_eq. Qed.

Section ListProofs.
Variable createdById : Event -> jstr.
Variable date_bounds : jstr -> option (Z * Z).

Lemma attendance_where_facts (uid role : jstr) (eventId registrationId sessionId date : option jstr)
    (w : att_where) :
  attendance_where date_bounds uid role eventId registrationId sessionId date = Some w ->
  aw_registrationId w = nonempty registrationId /\ aw_sessionId w = nonempty sessionId /\
  (role = js "USER" -> exists e, aw_registration w = Some (e, Some uid, None)) /\
  (role = js "EVENT_ORGANIZER" -> exists e, aw_registration w = Some (e, None, Some uid)).
Proof.
  unfold attendance_where. intros Hw.
  destruct (nonempty date) as [d|]; [destruct (date_bounds d) as [b|]|]; try discriminate Hw;
    injection Hw as <-; cbn [aw_registrationId aw_sessionId aw_registration];
    (split; [reflexivity|]); (split; [reflexivity|]);
    split; intros ->; eexists; reflexivity.
Qed.

Lemma registration_filter_true (st : Store) (e u c : option jstr) (r : jstr) :
  registration_filter createdById st (e, u, c) r = true ->
  exists g, In g (registrations st) /\ reg_id g = r /\
    (forall x, e = Some x -> reg_eventId g = x) /\ (forall x, u = Some x -> reg_userId g = x) /\
    (forall x, c = Some x -> exists ev, In ev (events st) /\ ev_id ev = reg_eventId g /\
                                        createdById ev = x).
Proof.
  unfold registration_filter.
  destruct (find (fun g => jstr_eqb (reg_id g) r) (registrations st)) as [g|] eqn:Hg;
    [|discriminate].
  apply find_some in Hg as [Hgin Hgid]. apply jstr_eqb_eq in Hgid.
  intros H. apply andb_true_iff in H as [H Hc]. apply andb_true_iff in H as [He Hu].
  exists g. split; [exact Hgin|]. split; [exact Hgid|].
  split; [intros x ->; apply opt_match_some, He|].
  split; [intros x ->; apply opt_match_some, Hu|].
  intros x ->.
  destruct (find (fun ev => jstr_eqb (ev_id ev) (reg_eventId g)) (events st)) as [ev|] eqn:Hev;
    [|discriminate].
  apply find_some in Hev as [Hevin Hevid]. apply jstr_eqb_eq in Hevid, Hc.
  exists ev. auto.
Qed.

(** [GET /api/attendance] only lists rows of the store; to a USER only
    rows of their own registrations and to an EVENT_ORGANIZER only rows
    of events they created, whatever the query; and the registrationId
    and sessionId parameters, when given, are matched exactly. *)
Theorem attendance_get_scope (st : Store) (uid role : jstr)
    (eventId registrationId sessionId date : option jstr) (rows : list Attendance)
    (a : Attendance) :
  attendance_get createdById date_bounds st (Some (uid, role)) eventId registrationId sessionId date
    = LRows rows ->
  In a rows ->
  In a (attendances st) /\
  (role = js "USER" -> exists g, In g (registrations st) /\
     reg_id g = att_registrationId a /\ reg_userId g = uid) /\
  (role = js "EVENT_ORGANIZER" -> exists g ev, In g (registrations st) /\
     reg_id g = att_registrationId a /\ In ev (events st) /\ ev_id ev = reg_eventId g /\
     createdById ev = uid) /\
  (forall r, nonempty registrationId = Some r -> att_registrationId a = r) /\
  (forall s, nonempty sessionId = Some s -> att_sessionId a = Some s).
Proof.
  unfold attendance_get.
  destruct (attendance_where date_bounds uid role eventId registrationId sessionId date) as [w|]
    eqn:Hw; [|discriminate].
  intros H Hin. injection H as <-.
  apply filter_In in Hin as [Hin Hm].
  destruct (attendance_where_facts _ _ _ _ _ _ _ Hw) as [Hwr [Hws [Hu Ho]]].
  unfold attendance_matches in Hm.
  apply andb_true_iff in Hm as [Hm _]. apply andb_true_iff in Hm as [Hm Hs].
  apply andb_true_iff in Hm as [Hr Hreg].
  split; [exact Hin|].
  split.
  { intros Hrole. destruct (Hu Hrole) as [e He]. rewrite He in Hreg.
    destruct (registration_filter_true _ _ _ _ _ Hreg) as [g [Hg [Hgid [_ [Hgu _]]]]].
    exists g. auto. }
  split.
  { intros Hrole. destruct (Ho Hrole) as [e He]. rewrite He in Hreg.
    destruct (registration_filter_true _ _ _ _ _ Hreg) as [g [Hg [Hgid [_ [_ Hgc]]]]].
    destruct (Hgc uid eq_refl) as [ev [Hev [Hevid Hevc]]].
    exists g, ev. auto. }
  split.
  { intros r Hr'. rewrite Hwr, Hr' in Hr. apply opt_match_some, Hr. }
  { intros s Hs'. rewrite Hws, Hs' in Hs. apply opt_jstr_eqb_eq, Hs. }
Qed.

(** With no query parameters, a USER gets exactly the attendance rows of
    their own registrations (registration ids being distinct). *)
Theorem attendance_get_user_rows (st : Store) (uid : jstr) :
  NoDup (map reg_id (registrations st)) ->
  exists rows,
    attendance_get createdById date_bounds st (Some (uid, js "USER")) None None None None
      = LRows rows /\
    forall a, In a rows <-> In a (attendances st) /\
      exists g, In g (registrations st) /\ reg_id g = att_registrationId a /\ reg_userId g = uid.
Proof.
  intros Hnd.
  set (w := {| aw_registrationId := None; aw_registration := Some (None, Some uid, None);
               aw_sessionId := None; aw_checkInTime := None |}).
  assert (Hw : attendance_where date_bounds uid (js "USER") None None None None = Some w)
    by reflexivity.
  exists (filter (attendance_matches createdById st w) (attendances st)).
  split; [unfold attendance_get; rewrite Hw; reflexivity|]. intros a.
  rewrite filter_In.
  assert (Hm_iff : attendance_matches createdById st w a
                   = registration_filter createdById st (None, Some uid, None) (att_registrationId a)).
  { unfold attendance_matches. cbn [w aw_registrationId aw_registration aw_sessionId
      aw_checkInTime opt_match andb]. rewrite !andb_true_r. reflexivity. }
  rewrite Hm_iff. split.
  - intros [Hin Hm]. split; [exact Hin|].
    destruct (registration_filter_true _ _ _ _ _ Hm) as [g [Hg [Hgid [_ [Hgu _]]]]].
    exists g. auto.
  - intros [Hin [g [Hg [Hgid Hgu]]]]. split; [exact Hin|].
    unfold registration_filter.
    rewrite (find_unique reg_id (registrations st) g (att_registrationId a) Hnd Hg Hgid).
    cbn [opt_match andb]. rewrite andb_true_r. apply jstr_eqb_eq, Hgu.
Qed.

(** [GET /api/registrations] only lists registrations of the store; to
    a user who is neither ADMIN nor EVENT_ORGANIZER only their own,
    whatever userId they pass; to an EVENT_ORGANIZER only registrations
    for events they created; and the eventId, userId (for staff) and a
    valid status parameter are matched exactly. *)
Theorem registrations_get_scope (st : Store) (uid role : jstr)
    (eventId userId status : option jstr) (rows : list Registration) (g : Registration) :
  registrations_get createdById st (Some (uid, role)) eventId userId status = LRows rows ->
  In g rows ->
  In g (registrations st) /\
  (role <> js "ADMIN" -> role <> js "EVENT_ORGANIZER" -> reg_userId g = uid) /\
  ((role = js "ADMIN" \/ role = js "EVENT_ORGANIZER") ->
     forall x, nonempty userId = Some x -> reg_userId g = x) /\
  (role = js "EVENT_ORGANIZER" ->
     exists ev, In ev (events st) /\ ev_id ev = reg_eventId g /\ createdById ev = uid) /\
  (forall e, nonempty eventId = Some e -> reg_eventId g = e) /\
  (forall s, nonempty status = Some s -> isValidRegistrationStatus (Some (JStr s)) = true ->
     reg_status_str (reg_status g) = s).
Proof.
  unfold registrations_get. destruct uid as [|c0 uid0]; [discriminate|].
  intros H Hin. injection H as <-. apply filter_In in Hin as [Hin Hm].
  unfold registration_matches in Hm.
  apply andb_true_iff in Hm as [Hm Hc]. apply andb_true_iff in Hm as [Hm Hst].
  apply andb_true_iff in Hm as [Hu He].
  assert (Hwe : rw_eventId (registrations_where (c0 :: uid0) role eventId userId status)
                = nonempty eventId).
  { unfold registrations_where. destruct (_ || _); reflexivity. }
  assert (Hws : forall s, nonempty status = Some s -> isValidRegistrationStatus (Some (JStr s)) = true ->
            rw_status (registrations_where (c0 :: uid0) role eventId userId status) = Some s).
  { intros s Hs Hv. unfold registrations_where. rewrite Hs, Hv. destruct (_ || _); reflexivity. }
  split; [exact Hin|].
  split.
  { intros Ha Ho. unfold registrations_where in Hu.
    destruct (jstr_eqb role (js "ADMIN")) eqn:E1; [apply jstr_eqb_eq in E1; contradiction|].
    destruct (jstr_eqb role (js "EVENT_ORGANIZER")) eqn:E2;
      [apply jstr_eqb_eq in E2; contradiction|].
    apply opt_match_some, Hu. }
  split.
  { intros Hrole x Hx. unfold registrations_where in Hu.
    assert (Hstaff : jstr_eqb role (js "ADMIN") || jstr_eqb role (js "EVENT_ORGANIZER") = true)
      by (destruct Hrole as [-> | ->]; reflexivity).
    rewrite Hstaff, Hx in Hu. apply opt_match_some, Hu. }
  split.
  { intros ->. cbn [registrations_where rw_createdById] in Hc.
    change (jstr_eqb (js "EVENT_ORGANIZER") (js "ADMIN")) with false in Hc.
    change (jstr_eqb (js "EVENT_ORGANIZER") (js "EVENT_ORGANIZER")) with true in Hc.
    cbn [orb rw_createdById] in Hc.
    destruct (find (fun ev => jstr_eqb (ev_id ev) (reg_eventId g)) (events st)) as [ev|] eqn:Hev;
      [|discriminate].
    apply find_some in Hev as [Hevin Hevid]. apply jstr_eqb_eq in Hevid, Hc.
    exists ev. auto. }
  split.
  { intros e Hx. rewrite Hwe, Hx in He. apply opt_match_some, He. }
  { intros s Hs Hv. rewrite (Hws s Hs Hv) in Hst. apply opt_match_some, Hst. }
Qed.

End ListProofs.

Lemma attendance_get_scope_witness :
  attendance_get (fun _ => js "org") (fun _ => None) sample_store_checked_in
    (Some (js "u1", js "USER")) None None None None = LRows [sample_open_row] /\
  In sample_open_row (attendances sample_store_checked_in) /\
  (js "USER" = js "USER" -> exists g, In g (registrations sample_store_checked_in) /\
     reg_id g = att_registrationId sample_open_row /\ reg_userId g = js "u1") /\
  (js "USER" = js "EVENT_ORGANIZER" -> exists g ev, In g (registrations sample_store_checked_in) /\
     reg_id g = att_registrationId sample_open_row /\ In ev (events sample_store_checked_in) /\
     ev_id ev = reg_eventId g /\ (fun _ : Event => js "org") ev = js "u1") /\
  (forall r, nonempty None = Some r -> att_registrationId sample_open_row = r) /\
  (forall s, nonempty None = Some s -> att_sessionId sample_open_row = Some s).
Proof.
  assert (H : attendance_get (fun _ => js "org") (fun _ => None) sample_store_checked_in
    (Some (js "u1", js "USER")) None None None None = LRows [sample_open_row]) by reflexivity.
  split; [exact H|].
  exact (attendance_get_scope (fun _ => js "org") (fun _ => None) sample_store_checked_in
           (js "u1") (js "USER") None None None None [sample_open_row] sample_open_row H
           (or_introl eq_refl)).
Defined.

Lemma attendance_get_user_rows_witness :
  NoDup (map reg_id (registrations sample_store_checked_in)) /\
  exists rows,
    attendance_get (fun _ => js "org") (fun _ => None) sample_store_checked_in
      (Some (js "u2", js "USER")) None None None None = LRows rows /\
    forall a, In a rows <-> In a (attendances sample_store_checked_in) /\
      exists g, In g (registrations sample_store_checked_in) /\ reg_id g = att_registrationId a /\
                reg_userId g = js "u2".
Proof.
  assert (H : NoDup (map reg_id (registrations sample_store_checked_in)))
    by (repeat constructor; intros []).
  split; [exact H|].
  exact (attendance_get_user_rows (fun _ => js "org") (fun _ => None) sample_store_checked_in
           (js "u2") H).
Defined.

Lemma registrations_get_scope_witness :
  registrations_get (fun _ => js "org") sample_store (Some (js "org", js "EVENT_ORGANIZER"))
    (Some (js "e1")) None (Some (js "CONFIRMED")) = LRows [sample_registration] /\
  In sample_registration (registrations sample_store) /\
  (js "EVENT_ORGANIZER" <> js "ADMIN" -> js "EVENT_ORGANIZER" <> js "EVENT_ORGANIZER" ->
     reg_userId sample_registration = js "org") /\
  ((js "EVENT_ORGANIZER" = js "ADMIN" \/ js "EVENT_ORGANIZER" = js "EVENT_ORGANIZER") ->
     forall x, nonempty None = Some x -> reg_userId sample_registration = x) /\
  (js "EVENT_ORGANIZER" = js "EVENT_ORGANIZER" ->
     exists ev, In ev (events sample_store) /\ ev_id ev = reg_eventId sample_registration /\
                (fun _ : Event => js "org") ev = js "org") /\
  (forall e, nonempty (Some (js "e1")) = Some e -> reg_eventId sample_registration = e) /\
  (forall s, nonempty (Some (js "CONFIRMED")) = Some s ->
     isValidRegistrationStatus (Some (JStr s)) = true ->
     reg_status_str (reg_status sample_registration) = s).
Proof.
  assert (H : registrations_get (fun _ => js "org") sample_store (Some (js "org", js "EVENT_ORGANIZER"))
    (Some (js "e1")) None (Some (js "CONFIRMED")) = LRows [sample_registration]) by reflexivity.
  split; [exact H|].
  exact (registrations_get_scope (fun _ => js "org") sample_store (js "org") (js "EVENT_ORGANIZER")
           (Some (js "e1")) None (Some (js "CONFIRMED")) [sample_registration] sample_registration
           H (or_introl eq_refl)).
Defined.

(** ** Registration and event capacity *)

(** Every event with a non-zero [maxCapacity] has at most that many
    registrations. *)
Definition within_capacity (maxCapacity : Event -> option Z) (st : Store) : Prop :=
  forall ev m, In ev (events st) -> maxCapacity ev = Some m -> m <> 0%Z ->
    (registration_count st (ev_id ev) <= m)%Z.

Lemma registration_count_snoc (st : Store) (g : Registration) (e : jstr) :
  registration_count (with_registrations st (registrations st ++ [g])) e
  = (registration_count st e + if jstr_eqb (reg_eventId g) e then 1 else 0)%Z.
Proof.
  unfold registration_count. cbn [registrations with_registrations].
  rewrite filter_app, length_app. cbn [filter].
  destruct (jstr_eqb (reg_eventId g) e); cbn [List.length]; lia.
Qed.

Section Capacity.
Context `{RT : Runtime}.

(** The registration route answers "Event is full" only for an event
    with a non-zero [maxCapacity] that its registrations have reached (a
    [maxCapacity] of 0 or none means no limit), and, event ids being
    distinct, no registration takes an event beyond its capacity. *)
Theorem registration_post_capacity (maxCapacity : Event -> option Z) (st : Store) (now : Z)
    (env : option jstr) (userId : jstr) (eventId category : option json)
    (nr nt : jstr) (rb : list N) (ok : bool) (resp : reg_response) (st' : Store) :
  registration_post maxCapacity st now env userId eventId category nr nt rb ok = (resp, st') ->
  (resp = EventFull -> exists ev m, eventId = Some (JStr (ev_id ev)) /\ In ev (events st) /\
     maxCapacity ev = Some m /\ m <> 0%Z /\ (m <= registration_count st (ev_id ev))%Z) /\
  (NoDup (map ev_id (events st)) -> within_capacity maxCapacity st ->
   within_capacity maxCapacity st').
Proof.
  intros H. split.
  - intros ->. unfold registration_post in H.
    destruct (negb (truthy eventId)); [discriminate|].
    destruct eventId as [[| | | e | |]|]; try discriminate.
    destruct (find (fun ev => jstr_eqb (ev_id ev) e) (events st)) as [ev|] eqn:Hev;
      [|discriminate].
    destruct (ev_status ev); try discriminate.
    destruct (maxCapacity ev) as [m|] eqn:Hm.
    + destruct (negb (m =? 0)%Z && (m <=? registration_count st e)%Z) eqn:Hfull.
      * apply andb_true_iff in Hfull as [Hz Hle]. apply negb_true_iff, Z.eqb_neq in Hz.
        apply Z.leb_le in Hle. apply find_some in Hev as [Hevin Hevid].
        apply jstr_eqb_eq in Hevid. subst e. exists ev, m. auto.
      * destruct (find _ (registrations st)); [discriminate|]. destruct ok; discriminate.
    + destruct (find _ (registrations st)); [discriminate|]. destruct ok; discriminate.
  - intros Hnd Hcap.
    destruct (registration_post_cases _ _ _ _ _ _ _ _ _ _ _ _ _ H)
      as [[-> _] | [e [ev0 [_ [Hev [_ [Hfull [_ Hres]]]]]]]]; [exact Hcap|].
    assert (Hst : events st' = events st /\
                  registration_count st' = registration_count
                    (with_registrations st (registrations st ++ [new_registration nr e userId]))).
    { destruct Hres as [[_ [_ ->]] | [_ [_ ->]]]; split; reflexivity. }
    destruct Hst as [Hevs Hcnt].
    intros ev m Hin Hm Hz. rewrite Hevs in Hin. rewrite Hcnt, registration_count_snoc.
    specialize (Hcap ev m Hin Hm Hz).
    cbn [reg_eventId new_registration].
    destruct (jstr_eqb e (ev_id ev)) eqn:E; [|lia].
    apply jstr_eqb_eq in E.
    assert (Hev' : find (fun ev => jstr_eqb (ev_id ev) e) (events st) = Some ev)
      by (apply find_unique; auto).
    rewrite Hev in Hev'. injection Hev' as ->.
    rewrite Hm in Hfull. apply andb_false_iff in Hfull as [Hf|Hf].
    + apply negb_false_iff, Z.eqb_eq in Hf. contradiction.
    + apply Z.leb_gt in Hf. rewrite <- E. lia.
Qed.

End Capacity.

Lemma registration_post_capacity_witness :
  registration_post (fun _ => Some 1%Z) sample_store 500 None (js "u2")
    (Some (JStr (js "e1"))) None (js "r2") (js "t2") [1; 2; 3; 4] true
  = (EventFull, sample_store) /\
  (EventFull = EventFull -> exists ev m, Some (JStr (js "e1")) = Some (JStr (ev_id ev)) /\
     In ev (events sample_store) /\ (fun _ : Event => Some 1%Z) ev = Some m /\ m <> 0%Z /\
     (m <= registration_count sample_store (ev_id ev))%Z) /\
  (NoDup (map ev_id (events sample_store)) -> within_capacity (fun _ => Some 1%Z) sample_store ->
   within_capacity (fun _ => Some 1%Z) sample_store).
Proof.
  assert (H : registration_post (fun _ => Some 1%Z) sample_store 500 None (js "u2")
    (Some (JStr (js "e1"))) None (js "r2") (js "t2") [1; 2; 3; 4] true
    = (EventFull, sample_store)) by reflexivity.
  split; [exact H|].
  exact (registration_post_capacity (fun _ => Some 1%Z) sample_store 500 None (js "u2")
           (Some (JStr (js "e1"))) None (js "r2") (js "t2") [1; 2; 3; 4] true EventFull
           sample_store H).
Defined.

Lemma find_snoc_some {A} (p : A -> bool) (l : list A) (x : A) :
  p x = true -> exists y, find p (l ++ [x]) = Some y.
Proof.
  induction l as [|y l IH]; intros Hx; cbn [app find]; [rewrite Hx; eexists; reflexivity|].
  destruct (p y); [eexists; reflexivity | apply IH, Hx].
Qed.

Section RegisterTwice.
Context `{RT : Runtime}.

(** Registering twice: once a user's registration for an event has
    succeeded, a new request of the same user for the same event, with
    any category, ids or ticket outcome, is refused as already
    registered (or as full, the capacity check coming first) and changes
    nothing. *)
Theorem registration_post_twice (maxCapacity : Event -> option Z) (st : Store) (now now2 : Z)
    (env env2 : option jstr) (userId : jstr) (eventId category category2 : option json)
    (nr nt nr2 nt2 : jstr) (rb rb2 : list N) (ok ok2 : bool)
    (g : Registration) (c : jstr) (t : option Ticket) (st' : Store)
    (resp2 : reg_response) (st'' : Store) :
  registration_post maxCapacity st now env userId eventId category nr nt rb ok
    = (Registered g c t, st') ->
  registration_post maxCapacity st' now2 env2 userId eventId category2 nr2 nt2 rb2 ok2
    = (resp2, st'') ->
  (resp2 = AlreadyRegistered \/ resp2 = EventFull) /\ st'' = st'.
Proof.
  intros H1 H2.
  destruct (registration_post_cases _ _ _ _ _ _ _ _ _ _ _ _ _ H1)
    as [[_ Hno] | [e [ev [He [Hev [Hs [_ [_ Hres]]]]]]]];
    [exfalso; exact (Hno g c t eq_refl)|].
  assert (Hne : e <> []).
  { intros ->. unfold registration_post in H1. rewrite He in H1. cbn in H1. discriminate H1. }
  assert (Hst : events st' = events st /\
                registrations st' = registrations st ++ [new_registration nr e userId]).
  { destruct Hres as [[_ [_ ->]] | [_ [_ ->]]]; split; reflexivity. }
  destruct Hst as [Hevs Hregs].
  unfold registration_post in H2. rewrite He, (truthy_str e Hne) in H2. cbn [negb] in H2.
  rewrite Hevs, Hev, Hs in H2.
  destruct (match maxCapacity ev with
            | Some m => negb (m =? 0)%Z && (m <=? registration_count st' e)%Z
            | None => false
            end).
  { injection H2 as <- <-. auto. }
  rewrite Hregs in H2.
  destruct (find_snoc_some (fun g => jstr_eqb (reg_eventId g) e && jstr_eqb (reg_userId g) userId)
              (registrations st) (new_registration nr e userId)) as [y Hy].
  { cbn [reg_eventId reg_userId new_registration]. rewrite !jstr_eqb_refl. reflexivity. }
  rewrite Hy in H2. injection H2 as <- <-. auto.
Qed.

End RegisterTwice.

Lemma registration_post_twice_witness :
  registration_post (fun _ => Some 100%Z) sample_registration_store 500 None (js "u1")
    (Some (JStr (js "e1"))) None (js "r1") (js "t1") [1; 2; 3; 4] true
  = (Registered (new_registration (js "r1") (js "e1") (js "u1")) (js "PUBLIC")
       (Some (ticket_of 500 None (js "t1") (js "r1") (js "e1") (js "u1") [1; 2; 3; 4])),
     snd sample_registration_run) /\
  registration_post (fun _ => Some 100%Z) (snd sample_registration_run) 600 None (js "u1")
    (Some (JStr (js "e1"))) (Some (JStr (js "VIP"))) (js "r2") (js "t2") [5; 6; 7; 8] true
  = (AlreadyRegistered, snd sample_registration_run) /\
  ((AlreadyRegistered = AlreadyRegistered \/ AlreadyRegistered = EventFull) /\
   snd sample_registration_run = snd sample_registration_run).
Proof.
  assert (H1 : registration_post (fun _ => Some 100%Z) sample_registration_store 500 None (js "u1")
    (Some (JStr (js "e1"))) None (js "r1") (js "t1") [1; 2; 3; 4] true
    = (Registered (new_registration (js "r1") (js "e1") (js "u1")) (js "PUBLIC")
       (Some (ticket_of 500 None (js "t1") (js "r1") (js "e1") (js "u1") [1; 2; 3; 4])),
     snd sample_registration_run)) by reflexivity.
  assert (H2 : registration_post (fun _ => Some 100%Z) (snd sample_registration_run) 600 None (js "u1")
    (Some (JStr (js "e1"))) (Some (JStr (js "VIP"))) (js "r2") (js "t2") [5; 6; 7; 8] true
    = (AlreadyRegistered, snd sample_registration_run)) by (vm_compute; reflexivity).
  split; [exact H1|]. split; [exact H2|].
  exact (registration_post_twice _ _ _ _ _ _ _ _ _ _ _ _ _ _ _ _ _ _ _ _ _ _ _ _ H1 H2).
Defined.
